(** * Card detector: detection pipeline, statistics and session loop

    A shallow embedding of [card_detector.py] (class [CardDetector]) and the
    properties of its per-frame pipeline, of its cumulative statistics and of
    the loop in [run].

    Modelling conventions.
    - Python [int] is [Z].
    - Python [float] values (contour areas, aspect ratios, channel means,
      clock readings, the frame rate) are exact rationals [Qc].  Every
      comparison the program makes is against one of the constants 1000,
      100000, 0.5, 0.8, 150, 100, 50 or another clock reading; for operands
      that are quotients of integers of pixel magnitude the correctly rounded
      binary64 quotient and the exact quotient compare alike against them, so
      the branch taken is the same.  The one non-number a float computation
      of the program can produce, the mean of an empty array, is modelled
      explicitly as [None] (see [np_mean]).
    - [defaultdict(int)] is a [gmap string Z] read with default 0.
    - Exceptions are explicit ([outcome]); the world the loop talks to (clock,
      screen grabber, sleep, Ctrl-C) is a script of per-iteration answers. *)

From Stdlib Require Import QArith Qcanon.
From stdpp Require Import gmap strings list fin_maps numbers sorting.

Local Open Scope Z_scope.

(** ** Python numbers *)

Definition Qcltb (x y : Qc) : bool :=
  match (x ?= y)%Qc with Lt => true | _ => false end.
Definition Qcgtb (x y : Qc) : bool :=
  match (x ?= y)%Qc with Gt => true | _ => false end.
Definition Qcgeb (x y : Qc) : bool :=
  match (x ?= y)%Qc with Lt => false | _ => true end.
Definition Qceqb (x y : Qc) : bool :=
  match (x ?= y)%Qc with Eq => true | _ => false end.

(** ** Exceptions and the monad of [CardDetector] methods *)

Inductive exn :=
  | KeyboardInterrupt     (* Ctrl-C *)
  | ScreenShotError       (* the screen grabber failed *)
  | ZeroDivisionError
  | TypeError.

(** [Pending] is not a Python result: it says that the script of world answers
    ended while the program was still running. *)
Inductive outcome (A : Type) :=
  | Ok (a : A)
  | Raise (e : exn)
  | Pending.
Arguments Ok {A} a.
Arguments Raise {A} e.
Arguments Pending {A}.

(** [x / y] on a float divisor. *)
Definition truediv (x y : Qc) : outcome Qc :=
  if Qceqb y 0 then Raise ZeroDivisionError else Ok (x / y)%Qc.

(** ** The detector object *)

Record CardDetector := mkCardDetector {
  update_interval : Qc;
  monitor_number : Z;
  card_counts : gmap string Z;
  total_frames_processed : Z;
  total_cards_detected : Z;
  session_start_time : option Qc;
  last_update_time : option Qc;
  fps_counter : Z;
  current_fps : Qc
}.

(** [__init__]; the [card_types] table is never read and [sct] is the world. *)
Definition __init__ (update_interval : Qc) (monitor_number : Z) : CardDetector :=
  {| update_interval := update_interval;
     monitor_number := monitor_number;
     card_counts := ∅;
     total_frames_processed := 0;
     total_cards_detected := 0;
     session_start_time := None;
     last_update_time := None;
     fps_counter := 0;
     current_fps := 0%Qc |}.

Definition set_card_counts (m : gmap string Z) (self : CardDetector) :=
  mkCardDetector (update_interval self) (monitor_number self) m
    (total_frames_processed self) (total_cards_detected self)
    (session_start_time self) (last_update_time self)
    (fps_counter self) (current_fps self).
Definition set_total_frames_processed (n : Z) (self : CardDetector) :=
  mkCardDetector (update_interval self) (monitor_number self) (card_counts self)
    n (total_cards_detected self)
    (session_start_time self) (last_update_time self)
    (fps_counter self) (current_fps self).
Definition set_total_cards_detected (n : Z) (self : CardDetector) :=
  mkCardDetector (update_interval self) (monitor_number self) (card_counts self)
    (total_frames_processed self) n
    (session_start_time self) (last_update_time self)
    (fps_counter self) (current_fps self).
Definition set_session_start_time (t : option Qc) (self : CardDetector) :=
  mkCardDetector (update_interval self) (monitor_number self) (card_counts self)
    (total_frames_processed self) (total_cards_detected self)
    t (last_update_time self)
    (fps_counter self) (current_fps self).
Definition set_last_update_time (t : option Qc) (self : CardDetector) :=
  mkCardDetector (update_interval self) (monitor_number self) (card_counts self)
    (total_frames_processed self) (total_cards_detected self)
    (session_start_time self) t
    (fps_counter self) (current_fps self).
Definition set_fps_counter (n : Z) (self : CardDetector) :=
  mkCardDetector (update_interval self) (monitor_number self) (card_counts self)
    (total_frames_processed self) (total_cards_detected self)
    (session_start_time self) (last_update_time self)
    n (current_fps self).
Definition set_current_fps (r : Qc) (self : CardDetector) :=
  mkCardDetector (update_interval self) (monitor_number self) (card_counts self)
    (total_frames_processed self) (total_cards_detected self)
    (session_start_time self) (last_update_time self)
    (fps_counter self) r.

(** [d[k]] on a [defaultdict(int)]. *)
Definition getitem (d : gmap string Z) (k : string) : Z := default 0 (d !! k).

(** ** Statistics update (the tail of [capture_and_process_frame]) *)

(** One turn of [for card_type, count in detected_cards.items()]
    (lines 160-162). *)
Definition count_card (self : CardDetector) (item : string * Z) : CardDetector :=
  let '(card_type, count) := item in
  let self := set_card_counts
                (<[card_type := getitem (card_counts self) card_type + count]>
                   (card_counts self)) self in
  set_total_cards_detected (total_cards_detected self + count) self.

(** The block "update statistics" (lines 158-162).  The items of the tally are
    visited in the order of the map; each turn only adds, so the order does
    not show in the result. *)
Definition update_statistics (self : CardDetector)
    (detected_cards : gmap string Z) : CardDetector :=
  let self := set_total_frames_processed (total_frames_processed self + 1) self in
  foldl count_card self (map_to_list detected_cards).

(** ** Regions and their classification *)

(** A pixel is three 8-bit channels in B, G, R order; an image (a frame or a
    region of interest) is a rectangular array of pixels, given by rows. *)
Definition pixel : Type := Z * Z * Z.
Definition image : Type := list (list pixel).

Definition channel (k : nat) (p : pixel) : Z :=
  match k with
  | O => p.1.1
  | S O => p.1.2
  | _ => p.2
  end.

Definition pixels (roi : image) : list pixel := concat roi.

(** [roi.size]: the number of array elements. *)
Definition size (roi : image) : Z := Z.of_nat (length (pixels roi)) * 3.

Definition channel_sum (k : nat) (roi : image) : Z :=
  foldr Z.add 0 (channel k <$> pixels roi).

(** The arithmetic mean of channel [k] over the pixels of a region. *)
Definition mean_of (k : nat) (roi : image) : Qc :=
  (Qc_of_Z (channel_sum k roi) / Qc_of_Z (Z.of_nat (length (pixels roi))))%Qc.

(** [np.mean(roi, axis=(0, 1))[k]].  numpy does not raise on an empty array:
    it answers nan, here [None]. *)
Definition np_mean (roi : image) (k : nat) : option Qc :=
  match pixels roi with
  | [] => None
  | _ => Some (mean_of k roi)
  end.

(** Float comparisons: every comparison with nan is false. *)
Definition float_gt (x : option Qc) (c : Qc) : bool :=
  match x with Some v => Qcgtb v c | None => false end.
Definition float_lt (x : option Qc) (c : Qc) : bool :=
  match x with Some v => Qcltb v c | None => false end.

Definition _identify_card_type (roi : image) : option string :=
  if size roi =? 0 then None
  else
    let avg_color := np_mean roi in
    if float_gt (avg_color 2%nat) (Qc_of_Z 150)
       && float_lt (avg_color 0%nat) (Qc_of_Z 100)
       && float_lt (avg_color 1%nat) (Qc_of_Z 100)
    then Some "heart_or_diamond"
    else if float_lt (avg_color 0%nat) (Qc_of_Z 50)
            && float_lt (avg_color 1%nat) (Qc_of_Z 50)
            && float_lt (avg_color 2%nat) (Qc_of_Z 50)
    then Some "spade_or_club"
    else Some "unknown_card".

(** The two threshold rules in the words of the design, on the means of the
    first (B), second (G) and third (R) channel. *)
Definition red_rule (b g r : Qc) : Prop :=
  (Qc_of_Z 150 < r ∧ b < Qc_of_Z 100 ∧ g < Qc_of_Z 100)%Qc.
Definition black_rule (b g r : Qc) : Prop :=
  (b < Qc_of_Z 50 ∧ g < Qc_of_Z 50 ∧ r < Qc_of_Z 50)%Qc.

(** ** Region extraction *)

(** The image-analysis capability, taken as given: [find_contours] stands for
    the chain [cvtColor], [Canny], [findContours] (lines 77-84). *)
Class ContourAnalysis (contour : Type) := {
  find_contours : image → list contour;
  contourArea : contour → Qc;
  boundingRect : contour → Z * Z * Z * Z
}.

Definition bind_outcome {A B} (f : A → outcome B) (m : outcome A) : outcome B :=
  match m with
  | Ok a => f a
  | Raise e => Raise e
  | Pending => Pending
  end.
#[global] Instance outcome_bind : MBind outcome := @bind_outcome.
#[global] Instance outcome_ret : MRet outcome := @Ok.

(** A slice bound on a sequence of length [len]: a negative bound counts from
    the end, and every bound is clipped to the sequence. *)
Definition slice_bound (len i : Z) : Z :=
  if i <? 0 then Z.max 0 (i + len) else Z.min i len.

(** [l[a:b]] *)
Definition slice {A} (a b : Z) (l : list A) : list A :=
  let len := Z.of_nat (length l) in
  let start := slice_bound len a in
  let stop := slice_bound len b in
  take (Z.to_nat (stop - start)) (drop (Z.to_nat start) l).

(** [frame[y:y+h, x:x+w]] *)
Definition crop (frame : image) (x y w h : Z) : image :=
  slice x (x + w) <$> slice y (y + h) frame.

(** [float(w) / h if h > 0 else 0] *)
Definition aspect_ratio (w h : Z) : outcome Qc :=
  if 0 <? h then truediv (Qc_of_Z w) (Qc_of_Z h) else Ok 0%Qc.

(** The filters of the contour loop (lines 88-102): [None] is [continue],
    [Some roi] is a contour that reaches the extraction of its region of
    interest. *)
Definition candidate_region {contour : Type} {CA : ContourAnalysis contour}
    (frame : image) (c : contour) : outcome (option image) :=
  let area := contourArea c in
  if Qcltb area (Qc_of_Z 1000) || Qcgtb area (Qc_of_Z 100000) then Ok None
  else
    let '(x, y, w, h) := boundingRect c in
    ar ← aspect_ratio w h;
    if Qcltb ar (Q2Qc 0.5) || Qcgtb ar (Q2Qc 0.8) then Ok None
    else Ok (Some (crop frame x y w h)).

(** [if card_type:] *)
Definition truthy_str (o : option string) : bool :=
  match o with
  | Some s => negb (String.eqb s "")
  | None => false
  end.

(** [for contour in contours] (lines 87-107). *)
Fixpoint detect_loop {contour : Type} {CA : ContourAnalysis contour}
    (frame : image) (contours : list contour)
    (frame_card_counts : gmap string Z) : outcome (gmap string Z) :=
  match contours with
  | [] => Ok frame_card_counts
  | c :: rest =>
      region ← candidate_region frame c;
      match region with
      | None => detect_loop frame rest frame_card_counts
      | Some roi =>
          match _identify_card_type roi with
          | Some card_type =>
              if truthy_str (Some card_type)
              then detect_loop frame rest
                     (<[card_type := getitem frame_card_counts card_type + 1]>
                        frame_card_counts)
              else detect_loop frame rest frame_card_counts
          | None => detect_loop frame rest frame_card_counts
          end
      end
  end.

Definition detect_cards_in_frame {contour : Type} {CA : ContourAnalysis contour}
    (frame : image) : outcome (gmap string Z) :=
  detect_loop frame (find_contours frame) ∅.

(** ** Methods that change the detector and print *)

Record snapshot := mkSnapshot {
  snap_elapsed : Qc;
  snap_frames : Z;
  snap_fps : Qc;
  snap_total : Z;
  snap_counts : gmap string Z
}.

Inductive message :=
  | Banner          (* "Starting Real-Time Card Detection System..." etc. *)
  | Stopping        (* "Stopping card detection system..." *)
  | FinalHeader     (* "Final Statistics:" *)
  | SessionEnded.   (* "Session ended." *)

Inductive event :=
  | Print (m : message)
  | Statistics (s : snapshot).   (* one call of [display_statistics] *)

(** A method: from the detector to a result, the detector as the method left
    it (also when it raised), and what was printed. *)
Definition M (A : Type) : Type :=
  CardDetector → outcome A * CardDetector * list event.

Definition ret_M {A} (a : A) : M A := λ self, (Ok a, self, []).
Definition bind_M {A B} (f : A → M B) (m : M A) : M B := λ self,
  let '(r, self1, out1) := m self in
  match r with
  | Ok a => let '(r2, self2, out2) := f a self1 in (r2, self2, out1 ++ out2)
  | Raise e => (Raise e, self1, out1)
  | Pending => (Pending, self1, out1)
  end.
#[global] Instance M_ret : MRet M := @ret_M.
#[global] Instance M_bind : MBind M := @bind_M.

Definition get : M CardDetector := λ self, (Ok self, self, []).
Definition modify (f : CardDetector → CardDetector) : M unit :=
  λ self, (Ok tt, f self, []).
Definition emit (e : event) : M unit := λ self, (Ok tt, self, [e]).
Definition lift {A} (r : outcome A) : M A := λ self, (r, self, []).

(** [try: body finally: final]; a body that is still running has not reached
    its [finally]. *)
Definition try_finally {A} (body : M A) (final : M unit) : M A := λ self,
  let '(r, self1, out1) := body self in
  match r with
  | Pending => (Pending, self1, out1)
  | _ =>
      let '(r2, self2, out2) := final self1 in
      match r2 with
      | Ok _ => (r, self2, out1 ++ out2)
      | Raise e => (Raise e, self2, out1 ++ out2)
      | Pending => (Pending, self2, out1 ++ out2)
      end
  end.

(** [try: body except KeyboardInterrupt: handler] *)
Definition except_KeyboardInterrupt (body handler : M unit) : M unit := λ self,
  let '(r, self1, out1) := body self in
  match r with
  | Raise KeyboardInterrupt =>
      let '(r2, self2, out2) := handler self1 in (r2, self2, out1 ++ out2)
  | _ => (r, self1, out1)
  end.

Definition reset_frame_stats : M unit := mret tt.

(** [grabbed] is what the grab of the monitor and its conversion to a BGR
    array give (lines 146-153). *)
Definition capture_and_process_frame {contour : Type}
    {CA : ContourAnalysis contour}
    (grabbed : outcome image) : M (image * gmap string Z) :=
  frame ← lift grabbed;
  detected_cards ← lift (detect_cards_in_frame frame);
  modify (λ self, update_statistics self detected_cards);;
  mret (frame, detected_cards).

(** [x if x else 0] and [if x] on an optional number. *)
Definition truthy (x : option Qc) : bool :=
  match x with
  | Some v => negb (Qceqb v 0)
  | None => false
  end.

(** [display_statistics], up to the layout of the text; [current_time] is the
    clock reading it takes. *)
Definition take_snapshot (current_time : Qc) (self : CardDetector) : snapshot :=
  let elapsed_time :=
    match session_start_time self with
    | Some t0 => if truthy (Some t0) then (current_time - t0)%Qc else 0%Qc
    | None => 0%Qc
    end in
  {| snap_elapsed := elapsed_time;
     snap_frames := total_frames_processed self;
     snap_fps := current_fps self;
     snap_total := total_cards_detected self;
     snap_counts := card_counts self |}.

Definition display_statistics (current_time : Qc) : M unit :=
  self ← get;
  emit (Statistics (take_snapshot current_time self)).

(** ** The session loop *)

(** What the world answers during one turn of [while True].  Ctrl-C is taken
    where the loop waits on the world: in the grab and in the sleep ([turn]
    below lets it land at every statement). *)
Record iteration := mkIteration {
  time_at_check : Qc;         (* [time.time()] of the duration check *)
  grabbed : outcome image;    (* the screen grab, as a BGR frame *)
  time_after_frame : Qc;      (* [current_time = time.time()] *)
  time_at_display : Qc;       (* the clock as [display_statistics] reads it *)
  slept : outcome unit        (* [time.sleep(0.01)] *)
}.

Definition the_time (t : option Qc) : M Qc :=
  match t with
  | Some v => mret v
  | None => lift (Raise TypeError)
  end.

(** The block "check if it's time to display statistics" (lines 218-233). *)
Definition report_if_due (current_time t_display : Qc) : M unit :=
  self ← get;
  last ← the_time (last_update_time self);
  let time_since_update := (current_time - last)%Qc in
  if Qcgeb time_since_update (update_interval self) then
    fps ← lift (truediv (Qc_of_Z (fps_counter self)) time_since_update);
    modify (set_current_fps fps);;
    display_statistics t_display;;
    modify (set_last_update_time (Some current_time));;
    modify (set_fps_counter 0);;
    reset_frame_stats
  else mret tt.

(** [if duration and (time.time() - self.session_start_time) >= duration]
    (line 208) *)
Definition should_stop (duration : option Qc) (now : Qc) : M bool :=
  match duration with
  | Some d =>
      if truthy (Some d) then
        self ← get;
        t0 ← the_time (session_start_time self);
        mret (Qcgeb (now - t0)%Qc d)
      else mret false
  | None => mret false
  end.

(** One turn of the loop (lines 207-236); the result says whether it left by
    [break]. *)
Definition loop_body {contour : Type} {CA : ContourAnalysis contour}
    (duration : option Qc) (it : iteration) : M bool :=
  stop ← should_stop duration (time_at_check it);
  if stop : bool then mret true
  else
    capture_and_process_frame (grabbed it);;
    modify (λ self, set_fps_counter (fps_counter self + 1) self);;
    report_if_due (time_after_frame it) (time_at_display it);;
    lift (slept it);;
    mret false.

Fixpoint while_true {contour : Type} {CA : ContourAnalysis contour}
    (duration : option Qc) (script : list iteration) : M unit :=
  match script with
  | [] => lift Pending
  | it :: rest =>
      stop ← loop_body duration it;
      if stop : bool then mret tt else while_true duration rest
  end.

(** [run]: [t_start] is the clock at the start, [script] what the world
    answers turn by turn, [t_final] the clock at the final statistics. *)
Definition run {contour : Type} {CA : ContourAnalysis contour}
    (duration : option Qc)
    (t_start : Qc) (script : list iteration) (t_final : Qc) : M unit :=
  emit (Print Banner);;
  modify (set_session_start_time (Some t_start));;
  modify (set_last_update_time (Some t_start));;
  try_finally
    (except_KeyboardInterrupt (while_true duration script) (emit (Print Stopping)))
    (emit (Print FinalHeader);;
     display_statistics t_final;;
     emit (Print SessionEnded)).

(** ** Vocabulary of the statements *)

(** The detector states after each of a sequence of updates. *)
Fixpoint update_trace (self : CardDetector)
    (tallies : list (gmap string Z)) : list CardDetector :=
  match tallies with
  | [] => []
  | t :: rest =>
      let self' := update_statistics self t in self' :: update_trace self' rest
  end.

(** Sum over all labels of the cumulative counts. *)
Definition sum_counts (m : gmap string Z) : Z :=
  map_fold (λ _ c acc, c + acc) 0 m.

Definition stats_consistent (self : CardDetector) : Prop :=
  total_cards_detected self = sum_counts (card_counts self).

(** A contour passes both filters of the contour loop, or is skipped. *)
Definition admitted {contour : Type} {CA : ContourAnalysis contour}
    (frame : image) (c : contour) : Prop :=
  ∃ roi, candidate_region frame c = Ok (Some roi).
Definition rejected {contour : Type} {CA : ContourAnalysis contour}
    (frame : image) (c : contour) : Prop :=
  candidate_region frame c = Ok None.

Definition is_statistics (e : event) : Prop := ∃ s, e = Statistics s.

(** What the [finally] of [run] prints. *)
Definition final_block (t_final : Qc) (self : CardDetector) : list event :=
  [Print FinalHeader; Statistics (take_snapshot t_final self); Print SessionEnded].

(** The detector as [run] hands it to the loop. *)
Definition started (t_start : Qc) (self : CardDetector) : CardDetector :=
  set_last_update_time (Some t_start)
    (set_session_start_time (Some t_start) self).

(** A method that prints nothing but statistics blocks. *)
Definition only_statistics {A} (m : M A) : Prop :=
  ∀ self, Forall is_statistics (m self).2.

(** A turn of the loop in which the grab succeeds and the sleep is not
    interrupted. *)
Definition uneventful (it : iteration) : Prop :=
  (∃ frame, grabbed it = Ok frame) ∧ slept it = Ok tt.

(** ** Concrete data for the examples *)

(** Contours given by their measurements: area and bounding rectangle. *)
Definition measured (found : list (Qc * (Z * Z * Z * Z)))
    : ContourAnalysis (Qc * (Z * Z * Z * Z)) :=
  {| find_contours := λ _, found; contourArea := fst; boundingRect := snd |}.

Definition solid (p : pixel) (rows cols : nat) : image :=
  replicate rows (replicate cols p).

Definition screen : image := solid (0, 0, 0) 480 640.
Definition big_contour : Qc * (Z * Z * Z * Z) :=
  (Qc_of_Z 100000, (100, 50, 300, 400)).
Definition small_contour : Qc * (Z * Z * Z * Z) :=
  (Qc_of_Z 1000, (10, 10, 32, 40)).
Definition slim_contour : Qc * (Z * Z * Z * Z) :=
  (Qc_of_Z 1000, (10, 10, 25, 50)).
Definition flat_contour : Qc * (Z * Z * Z * Z) :=
  (Qc_of_Z 5000, (7, 9, 60, 0)).

Definition dark_frame : image := solid (20, 20, 20) 60 50.
Definition dark_card : Qc * (Z * Z * Z * Z) := (Qc_of_Z 1200, (5, 5, 30, 45)).

Definition quiet_turn (t : Z) : iteration :=
  mkIteration (Qc_of_Z t) (Ok dark_frame) (Qc_of_Z t) (Qc_of_Z t) (Ok tt).
Definition interrupted_turn (t : Z) : iteration :=
  mkIteration (Qc_of_Z t) (Ok dark_frame) (Qc_of_Z t) (Qc_of_Z t)
    (Raise KeyboardInterrupt).
Definition failing_turn (t : Z) : iteration :=
  mkIteration (Qc_of_Z t) (Raise ScreenShotError) (Qc_of_Z t) (Qc_of_Z t) (Ok tt).

(** A detector in the middle of a session. *)
Definition counting (interval : Qc) (frames : Z) : CardDetector :=
  set_fps_counter frames
    (set_last_update_time (Some 0%Qc)
       (update_statistics (__init__ interval 1) {[ "spade_or_club" := 2 ]})).

(** ** Further vocabulary *)

(** The counts a list of tally items holds for a label. *)
Definition count_for (l : string) (items : list (string * Z)) : Z :=
  foldr (λ item acc, if decide (item.1 = l) then item.2 + acc else acc) 0 items.

(** The three labels of [_identify_card_type]. *)
Definition labels : list string :=
  ["heart_or_diamond"; "spade_or_club"; "unknown_card"].

(** The label the contour loop counts for a contour, if it counts it. *)
Definition counted_label {contour : Type} {CA : ContourAnalysis contour}
    (frame : image) (c : contour) : option string :=
  match candidate_region frame c with
  | Ok (Some roi) => _identify_card_type roi
  | _ => None
  end.

(** One turn of the contour loop, as a change of the tally. *)
Definition tally_step {contour : Type} {CA : ContourAnalysis contour}
    (frame : image) (counts : gmap string Z) (c : contour) : gmap string Z :=
  match counted_label frame c with
  | Some l => <[l := getitem counts l + 1]> counts
  | None => counts
  end.

(** Every entry is for one of the three labels and counts at least one. *)
Definition well_formed_tally (counts : gmap string Z) : Prop :=
  ∀ l n, counts !! l = Some n → l ∈ labels ∧ 1 ≤ n.

(** The thresholds of the classifier on one pixel. *)
Definition red_pixel (p : pixel) : Prop :=
  150 < channel 2 p ∧ channel 0 p < 100 ∧ channel 1 p < 100.
Definition black_pixel (p : pixel) : Prop :=
  channel 0 p < 50 ∧ channel 1 p < 50 ∧ channel 2 p < 50.

Definition colour_label (p : pixel) : string :=
  if decide (red_pixel p) then "heart_or_diamond"
  else if decide (black_pixel p) then "spade_or_club"
  else "unknown_card".

(** A property of one stretch of a session: the detector before, what was
    printed, the detector after. *)
Definition session_property : Type :=
  CardDetector → list event → CardDetector → Prop.

(** It holds of doing nothing and of one stretch after another. *)
Record chains (Φ : session_property) : Prop := {
  chains_nil : ∀ s, Φ s [] s;
  chains_app : ∀ s1 o1 s2 o2 s3, Φ s1 o1 s2 → Φ s2 o2 s3 → Φ s1 (o1 ++ o2) s3
}.

Definition obeys (Φ : session_property) {A} (m : M A) : Prop :=
  ∀ self, Φ self (m self).2 (m self).1.2.

(** It holds of each thing [run] does to the detector or prints. *)
Record respected {contour : Type} {CA : ContourAnalysis contour}
    (Φ : session_property) : Prop := {
  respected_chains : chains Φ;
  respected_update : ∀ frame tally s,
    detect_cards_in_frame frame = Ok tally → Φ s [] (update_statistics s tally);
  respected_fps_counter : ∀ n s, Φ s [] (set_fps_counter n s);
  respected_current_fps : ∀ r s, Φ s [] (set_current_fps r s);
  respected_last_update_time : ∀ t s, Φ s [] (set_last_update_time t s);
  respected_session_start_time : ∀ t s, Φ s [] (set_session_start_time t s);
  respected_display : ∀ t s, Φ s [Statistics (take_snapshot t s)] s;
  respected_print : ∀ m s, Φ s [Print m] s
}.

(** What a printed line shows, if it is a statistics block. *)
Definition shown (Q : snapshot → Prop) (e : event) : Prop :=
  match e with
  | Statistics sn => Q sn
  | Print _ => True
  end.

(** [P] of the detector is kept, and every statistics block printed shows
    [Q]. *)
Definition keeping (P : CardDetector → Prop) (Q : snapshot → Prop)
    : session_property :=
  λ s out s', P s → P s' ∧ Forall (shown Q) out.

(** The values are in ascending order and lie between [lo] and [hi]. *)
Fixpoint ascending (lo hi : Z) (l : list Z) : Prop :=
  match l with
  | [] => lo ≤ hi
  | v :: l' => lo ≤ v ∧ ascending v hi l'
  end.

(** The values of a field of the statistics blocks, in the order printed. *)
Definition shown_values (ν : snapshot → Z) (out : list event) : list Z :=
  omap (λ e, match e with
             | Statistics sn => Some (ν sn)
             | Print _ => None
             end) out.

(** The measure [μ] of the detector never goes down, and the statistics
    blocks show it as it goes. *)
Definition growing (μ : CardDetector → Z) (ν : snapshot → Z)
    : session_property :=
  λ s out s', ascending (μ s) (μ s') (shown_values ν out).

(** ** The breakdown of [display_statistics] *)

(** [(count / self.total_cards_detected * 100)
      if self.total_cards_detected > 0 else 0] (line 183) *)
Definition percentage (count total : Z) : outcome Qc :=
  if 0 <? total then
    q ← truediv (Qc_of_Z count) (Qc_of_Z total);
    Ok (q * Qc_of_Z 100)%Qc
  else Ok 0%Qc.

(** [sorted(self.card_counts.items())] (line 182): the keys are distinct, so
    the order is that of the labels. *)
Definition label_le (a b : string * Z) : Prop := String.leb a.1 b.1.
Definition sorted_items (d : gmap string Z) : list (string * Z) :=
  merge_sort label_le (map_to_list d).

(** The rows of the "Card Type Breakdown" (lines 181-184): label, count and
    percentage.  No row at all stands for the line "No cards detected
    yet...". *)
Fixpoint breakdown_rows (total : Z) (items : list (string * Z))
    : outcome (list (string * Z * Qc)) :=
  match items with
  | [] => Ok []
  | (card_type, count) :: rest =>
      p ← percentage count total;
      rows ← breakdown_rows total rest;
      Ok ((card_type, count, p) :: rows)
  end.

Definition card_type_breakdown (self : CardDetector)
    : outcome (list (string * Z * Qc)) :=
  breakdown_rows (total_cards_detected self) (sorted_items (card_counts self)).

(** ** More concrete data *)

Definition red_frame : image := solid (40, 40, 220) 60 50.
Definition low_contour : Qc * (Z * Z * Z * Z) := (Qc_of_Z 1200, (5, 60, 30, 45)).
Definition tiny_frame : image :=
  [[(1, 1, 1); (2, 2, 2); (3, 3, 3)];
   [(4, 4, 4); (5, 5, 5); (6, 6, 6)];
   [(7, 7, 7); (8, 8, 8); (9, 9, 9)]].

(** ** Interrupts at any statement of [run] *)

(** A KeyboardInterrupt is raised wherever the interpreter happens to be: not
    only in the grab and in the sleep, but at any statement of the loop, in
    the [except] handler, in the [finally] block and before the [try].  The
    definitions below follow [run] statement by statement once more, with a
    point in front of each statement that says what arrives there: [Ok tt]
    when the statement is reached and carried out, [Raise e] when [e] lands
    before it takes effect.  A statistics block that is cut short is not a
    statistics block: nothing is printed for it. *)

(** One turn of the loop. *)
Record turn := mkTurn {
  answers : iteration;        (* the clock, the grab and the sleep *)
  at_check : outcome unit;    (* the duration check, line 208 *)
  at_update : option nat;     (* [Some n]: Ctrl-C in the statistics update,
                                 after line 159 and [n] turns of lines 160-162 *)
  at_count : outcome unit;    (* [self.fps_counter += 1], line 215 *)
  at_clock : outcome unit;    (* lines 218-223, before the rate is assigned *)
  at_display : outcome unit;  (* the call of [display_statistics], line 226 *)
  at_mark : outcome unit;     (* [self.last_update_time = ...], line 229 *)
  at_clear : outcome unit;    (* [self.fps_counter = 0], line 230 *)
  at_reset : outcome unit     (* the call of [reset_frame_stats], line 233 *)
}.

(** The statements of [run] around the loop. *)
Record ending := mkEnding {
  at_banner : outcome unit;         (* the prints of lines 197-200 *)
  at_start : outcome unit;          (* the clock and lines 202-203 *)
  at_stopping : outcome unit;       (* the [except] handler, line 239 *)
  at_final_header : outcome unit;   (* line 242 *)
  at_final_display : outcome unit;  (* the final [display_statistics], line 243 *)
  at_session_ended : outcome unit   (* line 244 *)
}.

(** Lines 158-162 left after [n] turns of the [for]. *)
Definition interrupted_update (n : nat) (self : CardDetector)
    (detected_cards : gmap string Z) : CardDetector :=
  let self := set_total_frames_processed (total_frames_processed self + 1) self in
  foldl count_card self (take n (map_to_list detected_cards)).

Definition interruptible_capture {contour : Type}
    {CA : ContourAnalysis contour} (tn : turn) : M (image * gmap string Z) :=
  frame ← lift (grabbed (answers tn));
  detected_cards ← lift (detect_cards_in_frame frame);
  match at_update tn with
  | None =>
      modify (λ self, update_statistics self detected_cards);;
      mret (frame, detected_cards)
  | Some n =>
      modify (λ self, interrupted_update n self detected_cards);;
      lift (Raise KeyboardInterrupt)
  end.

Definition interruptible_report (tn : turn) : M unit :=
  let current_time := time_after_frame (answers tn) in
  self ← get;
  last ← the_time (last_update_time self);
  let time_since_update := (current_time - last)%Qc in
  if Qcgeb time_since_update (update_interval self) then
    fps ← lift (truediv (Qc_of_Z (fps_counter self)) time_since_update);
    modify (set_current_fps fps);;
    lift (at_display tn);;
    display_statistics (time_at_display (answers tn));;
    lift (at_mark tn);;
    modify (set_last_update_time (Some current_time));;
    lift (at_clear tn);;
    modify (set_fps_counter 0);;
    lift (at_reset tn);;
    reset_frame_stats
  else mret tt.

Definition interruptible_body {contour : Type} {CA : ContourAnalysis contour}
    (duration : option Qc) (tn : turn) : M bool :=
  lift (at_check tn);;
  stop ← should_stop duration (time_at_check (answers tn));
  if stop : bool then mret true
  else
    interruptible_capture tn;;
    lift (at_count tn);;
    modify (λ self, set_fps_counter (fps_counter self + 1) self);;
    lift (at_clock tn);;
    interruptible_report tn;;
    lift (slept (answers tn));;
    mret false.

Fixpoint interruptible_loop {contour : Type} {CA : ContourAnalysis contour}
    (duration : option Qc) (script : list turn) : M unit :=
  match script with
  | [] => lift Pending
  | tn :: rest =>
      stop ← interruptible_body duration tn;
      if stop : bool then mret tt else interruptible_loop duration rest
  end.

Definition interruptible_run {contour : Type} {CA : ContourAnalysis contour}
    (duration : option Qc) (t_start : Qc) (script : list turn) (t_final : Qc)
    (e : ending) : M unit :=
  lift (at_banner e);;
  emit (Print Banner);;
  lift (at_start e);;
  modify (set_session_start_time (Some t_start));;
  modify (set_last_update_time (Some t_start));;
  try_finally
    (except_KeyboardInterrupt (interruptible_loop duration script)
       (lift (at_stopping e);; emit (Print Stopping)))
    (lift (at_final_header e);;
     emit (Print FinalHeader);;
     lift (at_final_display e);;
     display_statistics t_final;;
     lift (at_session_ended e);;
     emit (Print SessionEnded)).

(** Nothing lands besides what the grab and the sleep of the turn take. *)
Definition undisturbed (it : iteration) : turn :=
  mkTurn it (Ok tt) None (Ok tt) (Ok tt) (Ok tt) (Ok tt) (Ok tt) (Ok tt).
Definition undisturbed_ending : ending :=
  mkEnding (Ok tt) (Ok tt) (Ok tt) (Ok tt) (Ok tt) (Ok tt).

(** Ctrl-C while the periodic statistics are about to be printed, and in the
    statistics update before any label is counted. *)
Definition interrupted_at_display (t : Z) : turn :=
  mkTurn (quiet_turn t) (Ok tt) None (Ok tt) (Ok tt) (Raise KeyboardInterrupt)
    (Ok tt) (Ok tt) (Ok tt).
Definition interrupted_in_update (t : Z) : turn :=
  mkTurn (quiet_turn t) (Ok tt) (Some 0%nat) (Ok tt) (Ok tt) (Ok tt)
    (Ok tt) (Ok tt) (Ok tt).

(** Ctrl-C while the final statistics are about to be printed, and while the
    stopping message is. *)
Definition interrupted_ending : ending :=
  mkEnding (Ok tt) (Ok tt) (Ok tt) (Ok tt) (Raise KeyboardInterrupt) (Ok tt).
Definition interrupted_handler : ending :=
  mkEnding (Ok tt) (Ok tt) (Raise KeyboardInterrupt) (Ok tt) (Ok tt) (Ok tt).

(** A detector that has counted two labels, and the same with its total put
    back to 0. *)
Definition two_suits : CardDetector :=
  update_statistics
    (update_statistics (__init__ 1%Qc 1) {[ "spade_or_club" := 3 ]})
    {[ "heart_or_diamond" := 5 ]}.
Definition two_suits_no_total : CardDetector :=
  set_total_cards_detected 0 two_suits.

(** * Properties *)

Lemma sum_counts_empty : sum_counts ∅ = 0.
Proof. apply map_fold_empty. Qed.

Lemma sum_counts_delete (m : gmap string Z) k :
  sum_counts m = getitem m k + sum_counts (delete k m).
Proof.
  unfold sum_counts, getitem.
  destruct (m !! k) as [c|] eqn:Hk; simpl.
  - apply (map_fold_delete_L (λ _ c acc, c + acc)); [intros; lia | done].
  - by rewrite delete_id.
Qed.

Lemma sum_counts_insert (m : gmap string Z) k c :
  sum_counts (<[k := c]> m) = c + sum_counts (delete k m).
Proof.
  rewrite <-insert_delete_eq. unfold sum_counts.
  apply (map_fold_insert_L (λ _ c acc, c + acc)); [intros; lia |].
  apply lookup_delete_eq.
Qed.

Lemma count_card_consistent self item :
  stats_consistent self → stats_consistent (count_card self item).
Proof.
  destruct item as [k c]. unfold stats_consistent, count_card. simpl.
  intros ->. rewrite sum_counts_insert, (sum_counts_delete (card_counts self) k).
  lia.
Qed.

Lemma foldl_count_card_consistent items self :
  stats_consistent self → stats_consistent (foldl count_card self items).
Proof.
  revert self. induction items as [|it items IH]; intros self Hs; simpl; [done|].
  by apply IH, count_card_consistent.
Qed.

Lemma update_statistics_consistent self tally :
  stats_consistent self → stats_consistent (update_statistics self tally).
Proof. intros Hs. unfold update_statistics. by apply foldl_count_card_consistent. Qed.

Lemma count_card_frames self item :
  total_frames_processed (count_card self item) = total_frames_processed self.
Proof. by destruct item. Qed.

Lemma foldl_count_card_frames items self :
  total_frames_processed (foldl count_card self items) = total_frames_processed self.
Proof.
  revert self. induction items as [|it items IH]; intros self; simpl; [done|].
  by rewrite IH, count_card_frames.
Qed.

Lemma update_statistics_frames self tally :
  total_frames_processed (update_statistics self tally)
  = total_frames_processed self + 1.
Proof. unfold update_statistics. by rewrite foldl_count_card_frames. Qed.

Lemma update_trace_consistent tallies self :
  stats_consistent self → Forall stats_consistent (update_trace self tallies).
Proof.
  revert self. induction tallies as [|t rest IH]; intros self Hs; simpl.
  - constructor.
  - constructor; [|apply IH]; by apply update_statistics_consistent.
Qed.

Lemma update_trace_frames tallies self :
  total_frames_processed <$> update_trace self tallies
  = (λ k, total_frames_processed self + Z.of_nat k) <$> seq 1 (length tallies).
Proof.
  revert self. induction tallies as [|t rest IH]; intros self; simpl; [done|].
  rewrite IH, update_statistics_frames. f_equal.
  rewrite <-(fmap_S_seq 1), <-list_fmap_compose. apply list_fmap_ext.
  intros _ k _. simpl. lia.
Qed.

(** The tallies {A: 5}, {B: 3}, {} in sequence: 3 frames, 8 cards, and the
    counts A: 5, B: 3. *)
Example three_frames_scenario :
  let self := foldl update_statistics (__init__ 1%Qc 1)
                [ {[ "heart_or_diamond" := 5 ]}; {[ "spade_or_club" := 3 ]}; ∅ ] in
  total_frames_processed self = 3
  ∧ total_cards_detected self = 8
  ∧ card_counts self = {[ "heart_or_diamond" := 5; "spade_or_club" := 3 ]}.
Proof. by vm_compute. Qed.

(** C1. Starting from a fresh detector, after each statistics update of any
    sequence of frame tallies the total of detected cards equals the sum over
    all labels of the cumulative per-label counts. *)
Theorem total_equals_sum_after_every_update interval monitor
    (tallies : list (gmap string Z)) :
  Forall stats_consistent (update_trace (__init__ interval monitor) tallies).
Proof.
  apply update_trace_consistent. unfold stats_consistent. simpl.
  by rewrite sum_counts_empty.
Qed.

(** C5. Every statistics update adds exactly one to the frame counter,
    whatever the tally (empty or not); so after the k-th of N updates of a
    fresh detector the counter is k, and N at the end. *)
Theorem frames_processed_counts_updates interval monitor
    (tallies : list (gmap string Z)) :
  (∀ self tally, total_frames_processed (update_statistics self tally)
                 = total_frames_processed self + 1)
  ∧ total_frames_processed <$> update_trace (__init__ interval monitor) tallies
    = Z.of_nat <$> seq 1 (length tallies)
  ∧ total_frames_processed
      (foldl update_statistics (__init__ interval monitor) tallies)
    = Z.of_nat (length tallies).
Proof.
  split; [apply update_statistics_frames|]. split.
  - rewrite update_trace_frames. by apply list_fmap_ext.
  - assert (∀ ts self, total_frames_processed (foldl update_statistics self ts)
                       = total_frames_processed self + Z.of_nat (length ts)) as H.
    { induction ts as [|t ts IH]; intros self; simpl; [lia|].
      rewrite IH, update_statistics_frames. lia. }
    by rewrite H.
Qed.

(** ** Comparisons of rationals *)

Lemma Qcltb_lt x y : Qcltb x y = true ↔ (x < y)%Qc.
Proof. unfold Qcltb. rewrite Qclt_alt. destruct (x ?= y)%Qc; naive_solver. Qed.

Lemma Qcgtb_gt x y : Qcgtb x y = true ↔ (y < x)%Qc.
Proof.
  unfold Qcgtb. rewrite (Qcgt_alt x y). destruct (x ?= y)%Qc; naive_solver.
Qed.

Lemma Qceqb_eq x y : Qceqb x y = true ↔ x = y.
Proof. unfold Qceqb. rewrite Qceq_alt. destruct (x ?= y)%Qc; naive_solver. Qed.

Lemma Qcgeb_ltb x y : Qcgeb x y = negb (Qcltb x y).
Proof. unfold Qcgeb, Qcltb. by destruct (x ?= y)%Qc. Qed.

Lemma Qcltb_ge x y : Qcltb x y = false ↔ (y ≤ x)%Qc.
Proof.
  rewrite <-not_true_iff_false, Qcltb_lt.
  split; [apply Qcnot_lt_le | apply Qcle_not_lt].
Qed.

Lemma Qcgtb_le x y : Qcgtb x y = false ↔ (x ≤ y)%Qc.
Proof.
  rewrite <-not_true_iff_false, Qcgtb_gt.
  split; [apply Qcnot_lt_le | apply Qcle_not_lt].
Qed.

Lemma Qcgeb_ge x y : Qcgeb x y = true ↔ (y ≤ x)%Qc.
Proof. rewrite Qcgeb_ltb, negb_true_iff. apply Qcltb_ge. Qed.

Lemma Qcgeb_lt x y : Qcgeb x y = false ↔ (x < y)%Qc.
Proof. rewrite Qcgeb_ltb, negb_false_iff. apply Qcltb_lt. Qed.

Lemma Qceqb_ne x y : Qceqb x y = false ↔ x ≠ y.
Proof. by rewrite <-not_true_iff_false, Qceqb_eq. Qed.

Lemma Qc_of_Z_eq_0 n : Qc_of_Z n = 0%Qc → n = 0.
Proof. intros H. apply (f_equal this) in H. simpl in H. by injection H. Qed.

(** [v < lo or v > hi] is false exactly on the closed band. *)
Lemma outside_band v lo hi :
  Qcltb v lo || Qcgtb v hi = false ↔ (lo ≤ v ≤ hi)%Qc.
Proof. by rewrite orb_false_iff, Qcltb_ge, Qcgtb_le. Qed.

(** ** Region extraction *)

Section region_extraction.
Context {contour : Type} {CA : ContourAnalysis contour}.
Implicit Types (frame : image) (c : contour).

Lemma aspect_ratio_positive w h :
  0 < h → aspect_ratio w h = Ok (Qc_of_Z w / Qc_of_Z h)%Qc.
Proof.
  intros Hh. unfold aspect_ratio, truediv.
  destruct (Z.ltb_spec 0 h) as [_|?]; [|lia].
  destruct (Qceqb (Qc_of_Z h) 0) eqn:Hz; [|done].
  apply Qceqb_eq, Qc_of_Z_eq_0 in Hz. lia.
Qed.

Lemma aspect_ratio_degenerate w h : h ≤ 0 → aspect_ratio w h = Ok 0%Qc.
Proof.
  intros Hh. unfold aspect_ratio. by destruct (Z.ltb_spec 0 h) as [?|_]; [lia|].
Qed.

(** The division of the aspect ratio never raises. *)
Lemma aspect_ratio_total w h : ∃ ar, aspect_ratio w h = Ok ar.
Proof.
  destruct (decide (0 < h)).
  - eexists. by apply aspect_ratio_positive.
  - eexists. apply aspect_ratio_degenerate. lia.
Qed.

Lemma candidate_region_eq frame c x y w h ar :
  boundingRect c = (x, y, w, h) →
  aspect_ratio w h = Ok ar →
  candidate_region frame c
  = Ok (if decide ((Qc_of_Z 1000 ≤ contourArea c ≤ Qc_of_Z 100000)
                   ∧ (Q2Qc 0.5 ≤ ar ≤ Q2Qc 0.8))%Qc
        then Some (crop frame x y w h) else None).
Proof.
  intros Hrect Har. unfold candidate_region. rewrite Hrect.
  destruct (Qcltb _ _ || Qcgtb _ _) eqn:Harea.
  { rewrite decide_False; [done|]. rewrite <-outside_band.
    intros [? _]. congruence. }
  rewrite Har. simpl.
  destruct (Qcltb ar _ || Qcgtb ar _) eqn:Hband.
  { rewrite decide_False; [done|]. rewrite <-(outside_band ar).
    intros [_ ?]. congruence. }
  rewrite decide_True; [done|]. by rewrite <-!outside_band.
Qed.

Lemma candidate_region_total frame c :
  ∃ region, candidate_region frame c = Ok region.
Proof.
  destruct (boundingRect c) as [[[x y] w] h] eqn:Hrect.
  destruct (aspect_ratio_total w h) as [ar Har].
  rewrite (candidate_region_eq frame c x y w h ar Hrect Har). eauto.
Qed.

Lemma admitted_iff frame c x y w h :
  boundingRect c = (x, y, w, h) → 0 < h →
  admitted frame c ↔
    (Qc_of_Z 1000 ≤ contourArea c ≤ Qc_of_Z 100000)%Qc
    ∧ (Q2Qc 0.5 ≤ Qc_of_Z w / Qc_of_Z h ≤ Q2Qc 0.8)%Qc.
Proof.
  intros Hrect Hh. unfold admitted.
  rewrite (candidate_region_eq frame c x y w h _ Hrect (aspect_ratio_positive w h Hh)).
  case_decide; [split; [done | eauto] | split; [intros [? [=]] | done]].
Qed.

Lemma detect_loop_total frame (contours : list contour) counts :
  ∃ counts', detect_loop frame contours counts = Ok counts'.
Proof.
  revert counts. induction contours as [|c rest IH]; intros counts; simpl; [eauto|].
  destruct (candidate_region_total frame c) as [region ->]. simpl.
  destruct region as [roi|]; [|apply IH].
  destruct (_identify_card_type roi) as [card_type|]; [|apply IH].
  destruct (negb _); apply IH.
Qed.

(** Detection never raises: no contour makes it divide by zero. *)
Lemma detect_cards_in_frame_total frame :
  ∃ counts, detect_cards_in_frame frame = Ok counts.
Proof. apply detect_loop_total. Qed.

(** C2 (as amended). The area filter is the closed band from 1000 to 100000:
    a contour whose aspect ratio passes is admitted exactly when
    1000 <= area <= 100000; in particular an area of exactly 1000 and an area
    of exactly 100000 are both admitted. *)
Theorem area_filter_is_closed_band frame c x y w h :
  boundingRect c = (x, y, w, h) → 0 < h →
  (Q2Qc 0.5 ≤ Qc_of_Z w / Qc_of_Z h ≤ Q2Qc 0.8)%Qc →
  (admitted frame c ↔ (Qc_of_Z 1000 ≤ contourArea c ≤ Qc_of_Z 100000)%Qc)
  ∧ (contourArea c = Qc_of_Z 1000 → admitted frame c)
  ∧ (contourArea c = Qc_of_Z 100000 → admitted frame c).
Proof.
  intros Hrect Hh Har. rewrite (admitted_iff frame c x y w h Hrect Hh).
  split; [split; [by intros [? _] | done]|].
  split; intros ->; (split; [|done]); split; done.
Qed.

(** C9. The aspect-ratio filter is the closed band from 0.5 to 0.8: a contour
    whose area passes is admitted exactly when 0.5 <= w/h <= 0.8; in
    particular a ratio of exactly 0.5 and a ratio of exactly 0.8 are both
    admitted. *)
Theorem aspect_ratio_filter_is_closed_band frame c x y w h :
  boundingRect c = (x, y, w, h) → 0 < h →
  (Qc_of_Z 1000 ≤ contourArea c ≤ Qc_of_Z 100000)%Qc →
  (admitted frame c ↔ (Q2Qc 0.5 ≤ Qc_of_Z w / Qc_of_Z h ≤ Q2Qc 0.8)%Qc)
  ∧ ((Qc_of_Z w / Qc_of_Z h)%Qc = Q2Qc 0.5 → admitted frame c)
  ∧ ((Qc_of_Z w / Qc_of_Z h)%Qc = Q2Qc 0.8 → admitted frame c).
Proof.
  intros Hrect Hh Harea. rewrite (admitted_iff frame c x y w h Hrect Hh).
  split; [split; [by intros [_ ?] | done]|].
  split; intros ->; (split; [done|]); split; done.
Qed.

(** C10. For a contour whose bounding rectangle has height 0 nothing is
    divided: the aspect ratio is 0, which is below 0.5, and the contour is
    skipped without an error. *)
Theorem zero_height_is_rejected frame c x y w :
  boundingRect c = (x, y, w, 0) →
  aspect_ratio w 0 = Ok 0%Qc ∧ (0 < Q2Qc 0.5)%Qc ∧ rejected frame c.
Proof.
  intros Hrect. split; [done|]. split; [done|]. unfold rejected.
  rewrite (candidate_region_eq frame c x y w 0 0%Qc Hrect eq_refl).
  by rewrite decide_False by (by intros [_ [? _]]).
Qed.

End region_extraction.

Lemma area_filter_is_closed_band_witness :
  admitted (CA := measured [big_contour]) screen big_contour.
Proof.
  apply (area_filter_is_closed_band (CA := measured [big_contour])
           screen big_contour 100 50 300 400);
    [reflexivity | lia | split; by vm_compute | reflexivity].
Defined.

(** C2, as stated, fails: a contour of area exactly 100000 (300 by 400 at
    (100, 50), ratio 0.75) is not skipped; its region is extracted. *)
Lemma area_at_maximum_is_admitted :
  contourArea (ContourAnalysis := measured [big_contour]) big_contour
  = Qc_of_Z 100000
  ∧ candidate_region (CA := measured [big_contour]) screen big_contour
    = Ok (Some (crop screen 100 50 300 400)).
Proof.
  split; [reflexivity|].
  rewrite (candidate_region_eq (CA := measured [big_contour])
             screen big_contour 100 50 300 400 (Q2Qc 0.75)).
  - rewrite decide_True; [done|]. repeat split; by vm_compute.
  - reflexivity.
  - unfold aspect_ratio, truediv. simpl. f_equal. apply Qc_is_canon. reflexivity.
Qed.

Lemma aspect_ratio_filter_is_closed_band_witness :
  admitted (CA := measured [small_contour]) screen small_contour
  ∧ admitted (CA := measured [slim_contour]) screen slim_contour.
Proof.
  split.
  - destruct (aspect_ratio_filter_is_closed_band (CA := measured [small_contour])
                screen small_contour 10 10 32 40)
      as (_ & _ & Hmax); [reflexivity | lia | split; by vm_compute |].
    apply Hmax, Qc_is_canon. reflexivity.
  - destruct (aspect_ratio_filter_is_closed_band (CA := measured [slim_contour])
                screen slim_contour 10 10 25 50)
      as (_ & Hmin & _); [reflexivity | lia | split; by vm_compute |].
    apply Hmin, Qc_is_canon. reflexivity.
Defined.

Lemma zero_height_is_rejected_witness :
  rejected (CA := measured [flat_contour]) screen flat_contour.
Proof.
  apply (zero_height_is_rejected (CA := measured [flat_contour])
           screen flat_contour 7 9 60).
  reflexivity.
Defined.

(** ** Classification *)

Lemma size_zero_iff roi : size roi = 0 ↔ pixels roi = [].
Proof.
  unfold size. destruct (pixels roi); simpl; [done|]. split; [lia | done].
Qed.

Lemma np_mean_nonempty roi k :
  pixels roi ≠ [] → np_mean roi k = Some (mean_of k roi).
Proof. unfold np_mean. by destruct (pixels roi). Qed.

Lemma _identify_card_type_empty roi :
  size roi = 0 → _identify_card_type roi = None.
Proof. intros Hs. unfold _identify_card_type. by rewrite Hs. Qed.

Lemma _identify_card_type_nonempty roi :
  size roi ≠ 0 →
  _identify_card_type roi
  = Some (if Qcgtb (mean_of 2 roi) (Qc_of_Z 150)
             && Qcltb (mean_of 0 roi) (Qc_of_Z 100)
             && Qcltb (mean_of 1 roi) (Qc_of_Z 100)
          then "heart_or_diamond"
          else if Qcltb (mean_of 0 roi) (Qc_of_Z 50)
                  && Qcltb (mean_of 1 roi) (Qc_of_Z 50)
                  && Qcltb (mean_of 2 roi) (Qc_of_Z 50)
          then "spade_or_club" else "unknown_card").
Proof.
  intros Hs. unfold _identify_card_type.
  destruct (Z.eqb_spec (size roi) 0) as [?|_]; [done|].
  rewrite size_zero_iff in Hs. rewrite !np_mean_nonempty by done. simpl.
  by repeat case_match.
Qed.

Lemma red_rule_bool b g r :
  Qcgtb r (Qc_of_Z 150) && Qcltb b (Qc_of_Z 100) && Qcltb g (Qc_of_Z 100) = true
  ↔ red_rule b g r.
Proof.
  unfold red_rule. by rewrite !andb_true_iff, Qcgtb_gt, !Qcltb_lt, (assoc _).
Qed.

Lemma black_rule_bool b g r :
  Qcltb b (Qc_of_Z 50) && Qcltb g (Qc_of_Z 50) && Qcltb r (Qc_of_Z 50) = true
  ↔ black_rule b g r.
Proof. unfold black_rule. by rewrite !andb_true_iff, !Qcltb_lt, (assoc _). Qed.

(** C6. An empty region has no label (and its mean is never taken).  On a
    non-empty region the rules are tried in order on the arithmetic means of
    the B, G and R channels: R > 150 with B < 100 and G < 100 gives
    "heart_or_diamond"; otherwise all three below 50 gives "spade_or_club";
    otherwise "unknown_card".  Means (50, 50, 200) give "heart_or_diamond",
    (30, 30, 30) "spade_or_club" and (100, 100, 100) "unknown_card". *)
Theorem classifier_priority_rules roi :
  (size roi = 0 → _identify_card_type roi = None)
  ∧ (size roi ≠ 0 →
     let b := mean_of 0 roi in
     let g := mean_of 1 roi in
     let r := mean_of 2 roi in
     (red_rule b g r → _identify_card_type roi = Some "heart_or_diamond")
     ∧ (¬ red_rule b g r → black_rule b g r →
        _identify_card_type roi = Some "spade_or_club")
     ∧ (¬ red_rule b g r → ¬ black_rule b g r →
        _identify_card_type roi = Some "unknown_card")
     ∧ (b = Qc_of_Z 50 → g = Qc_of_Z 50 → r = Qc_of_Z 200 →
        _identify_card_type roi = Some "heart_or_diamond")
     ∧ (b = Qc_of_Z 30 → g = Qc_of_Z 30 → r = Qc_of_Z 30 →
        _identify_card_type roi = Some "spade_or_club")
     ∧ (b = Qc_of_Z 100 → g = Qc_of_Z 100 → r = Qc_of_Z 100 →
        _identify_card_type roi = Some "unknown_card")).
Proof.
  split; [apply _identify_card_type_empty|]. intros Hs b g r.
  rewrite (_identify_card_type_nonempty roi Hs). fold b g r.
  split; [|split; [|split; [|split; [|split]]]].
  - intros Hred. apply red_rule_bool in Hred. by rewrite Hred.
  - intros Hred Hblack. rewrite <-red_rule_bool, not_true_iff_false in Hred.
    apply black_rule_bool in Hblack. by rewrite Hred, Hblack.
  - intros Hred Hblack. rewrite <-red_rule_bool, not_true_iff_false in Hred.
    rewrite <-black_rule_bool, not_true_iff_false in Hblack.
    by rewrite Hred, Hblack.
  - by intros -> -> ->.
  - by intros -> -> ->.
  - by intros -> -> ->.
Qed.

Lemma classifier_priority_rules_witness :
  _identify_card_type [] = None
  ∧ _identify_card_type (solid (50, 50, 200) 100 100) = Some "heart_or_diamond"
  ∧ _identify_card_type [[(30, 30, 30)]] = Some "spade_or_club"
  ∧ _identify_card_type [[(90, 90, 90); (110, 110, 110)]] = Some "unknown_card".
Proof.
  split; [by apply (classifier_priority_rules [])|].
  split; [|split].
  - destruct (classifier_priority_rules (solid (50, 50, 200) 100 100))
      as [_ Hrules].
    destruct Hrules as (_ & _ & _ & Hred & _); [by vm_compute|].
    apply Hred; apply Qc_is_canon; by vm_compute.
  - destruct (classifier_priority_rules [[(30, 30, 30)]]) as [_ Hrules].
    destruct Hrules as (_ & _ & _ & _ & Hblack & _); [done|].
    apply Hblack; apply Qc_is_canon; reflexivity.
  - destruct (classifier_priority_rules [[(90, 90, 90); (110, 110, 110)]])
      as [_ Hrules].
    destruct Hrules as (_ & _ & _ & _ & _ & Hgray); [done|].
    apply Hgray; apply Qc_is_canon; reflexivity.
Defined.

(** ** The reporting block *)

Ltac run_M :=
  unfold mbind, mret, M_bind, M_ret, bind_M, ret_M, get, modify, emit, lift,
    the_time; simpl.

Lemma report_if_due_unset self now td :
  last_update_time self = None →
  report_if_due now td self = (Raise TypeError, self, []).
Proof. intros Hl. unfold report_if_due. run_M. by rewrite Hl. Qed.

Lemma report_if_due_early self now td last :
  last_update_time self = Some last →
  (now - last < update_interval self)%Qc →
  report_if_due now td self = (Ok tt, self, []).
Proof.
  intros Hl Hdt. unfold report_if_due. run_M. rewrite Hl. simpl.
  apply Qcgeb_lt in Hdt. by rewrite Hdt.
Qed.

Lemma report_if_due_boundary self now td last :
  last_update_time self = Some last →
  (update_interval self ≤ now - last)%Qc →
  (now - last)%Qc ≠ 0%Qc →
  report_if_due now td self
  = (Ok tt,
     set_fps_counter 0
       (set_last_update_time (Some now)
          (set_current_fps (Qc_of_Z (fps_counter self) / (now - last))%Qc self)),
     [Statistics (take_snapshot td
        (set_current_fps (Qc_of_Z (fps_counter self) / (now - last))%Qc self))]).
Proof.
  intros Hl Hdt Hnz.
  unfold report_if_due, display_statistics, reset_frame_stats, truediv.
  run_M. rewrite Hl. simpl.
  apply Qcgeb_ge in Hdt. rewrite Hdt. apply Qceqb_ne in Hnz. by rewrite Hnz.
Qed.

Lemma report_if_due_zero_division self now td last :
  last_update_time self = Some last →
  (update_interval self ≤ now - last)%Qc →
  (now - last)%Qc = 0%Qc →
  report_if_due now td self = (Raise ZeroDivisionError, self, []).
Proof.
  intros Hl Hdt Hz.
  unfold report_if_due, display_statistics, reset_frame_stats, truediv.
  run_M. rewrite Hl. simpl.
  apply Qcgeb_ge in Hdt. rewrite Hdt. apply Qceqb_eq in Hz. by rewrite Hz.
Qed.

(** Every way the block can go. *)
Lemma report_if_due_cases self now td :
  report_if_due now td self = (Raise TypeError, self, [])
  ∨ report_if_due now td self = (Raise ZeroDivisionError, self, [])
  ∨ report_if_due now td self = (Ok tt, self, [])
  ∨ ∃ last, last_update_time self = Some last
      ∧ (update_interval self ≤ now - last)%Qc
      ∧ report_if_due now td self
        = (Ok tt,
           set_fps_counter 0
             (set_last_update_time (Some now)
                (set_current_fps
                   (Qc_of_Z (fps_counter self) / (now - last))%Qc self)),
           [Statistics (take_snapshot td
              (set_current_fps
                 (Qc_of_Z (fps_counter self) / (now - last))%Qc self))]).
Proof.
  destruct (last_update_time self) as [last|] eqn:Hl;
    [|left; by apply report_if_due_unset].
  destruct (decide (update_interval self ≤ now - last)%Qc) as [Hdt|Hdt].
  - destruct (decide ((now - last)%Qc = 0%Qc)).
    + right; left. by eapply report_if_due_zero_division.
    + do 3 right. exists last. split; [done|]. split; [done|].
      by apply report_if_due_boundary.
  - do 2 right; left. eapply report_if_due_early; [done|]. by apply Qcnot_le_lt.
Qed.

(** C8. The reporting block leaves the cumulative statistics (frames
    processed, cards detected, per-label counts) as they were, in every state;
    when a report is due it changes exactly the frame counter of the interval
    (to 0), the time of the last report (to now) and the frame rate, and
    [reset_frame_stats] changes nothing. *)
Theorem reporting_keeps_cumulative_statistics self now td :
  let self' := (report_if_due now td self).1.2 in
  (total_frames_processed self' = total_frames_processed self
   ∧ total_cards_detected self' = total_cards_detected self
   ∧ card_counts self' = card_counts self)
  ∧ (∀ last, last_update_time self = Some last →
       (update_interval self ≤ now - last)%Qc → (now - last)%Qc ≠ 0%Qc →
       self' = set_fps_counter 0
                 (set_last_update_time (Some now)
                    (set_current_fps
                       (Qc_of_Z (fps_counter self) / (now - last))%Qc self)))
  ∧ reset_frame_stats self' = (Ok tt, self', []).
Proof.
  intros self'. subst self'. split; [|split; [|done]].
  - destruct (report_if_due_cases self now td)
      as [-> | [-> | [-> | (last & _ & _ & ->)]]]; done.
  - intros last Hl Hdt Hnz. by rewrite (report_if_due_boundary self now td last).
Qed.

Lemma reporting_keeps_cumulative_statistics_witness :
  (report_if_due (Qc_of_Z 2) (Qc_of_Z 2) (counting 1%Qc 30)).1.2
  = set_fps_counter 0
      (set_last_update_time (Some (Qc_of_Z 2))
         (set_current_fps (Qc_of_Z (fps_counter (counting 1%Qc 30))
                           / (Qc_of_Z 2 - 0))%Qc (counting 1%Qc 30))).
Proof.
  apply (reporting_keeps_cumulative_statistics (counting 1%Qc 30)
           (Qc_of_Z 2) (Qc_of_Z 2));
    [reflexivity | by vm_compute | by vm_compute].
Defined.




(** ** What the loop prints *)

Create HintDb only_stats discriminated.

Lemma only_statistics_bind {A B} (m : M A) (f : A → M B) :
  only_statistics m → (∀ a, only_statistics (f a)) → only_statistics (m ≫= f).
Proof.
  intros Hm Hf self. specialize (Hm self). unfold mbind, M_bind, bind_M.
  destruct (m self) as [[[a|e|] self1] out1]; simpl in *; [|done|done].
  specialize (Hf a self1). destruct (f a self1) as [[r2 self2] out2]; simpl in *.
  by apply Forall_app.
Qed.

Lemma only_statistics_ret {A} (a : A) : only_statistics (mret a).
Proof. intros self. constructor. Qed.

Lemma only_statistics_get : only_statistics get.
Proof. intros self. constructor. Qed.

Lemma only_statistics_modify f : only_statistics (modify f).
Proof. intros self. constructor. Qed.

Lemma only_statistics_lift {A} (r : outcome A) : only_statistics (lift r).
Proof. intros self. constructor. Qed.

Lemma only_statistics_emit s : only_statistics (emit (Statistics s)).
Proof. intros self. repeat constructor. by exists s. Qed.

Lemma only_statistics_the_time t : only_statistics (the_time t).
Proof. destruct t; [apply only_statistics_ret | apply only_statistics_lift]. Qed.

#[global] Hint Resolve only_statistics_ret only_statistics_get
  only_statistics_modify only_statistics_lift only_statistics_emit
  only_statistics_the_time : only_stats.
#[global] Hint Extern 2 (only_statistics (_ ≫= _)) =>
  apply only_statistics_bind; [|intros ?] : only_stats.
#[global] Hint Extern 3 (only_statistics (if ?b then _ else _)) =>
  destruct b : only_stats.
#[global] Hint Extern 3 (only_statistics (match ?o with Some _ => _ | None => _ end)) =>
  destruct o : only_stats.

Lemma final_header_not_statistics out :
  Forall is_statistics out → Print FinalHeader ∉ out.
Proof.
  intros Hout Hin. rewrite list.Forall_forall in Hout.
  by destruct (Hout _ Hin) as [s ?].
Qed.

Lemma only_statistics_display t : only_statistics (display_statistics t).
Proof. unfold display_statistics. auto with only_stats. Qed.

Lemma only_statistics_report now td : only_statistics (report_if_due now td).
Proof.
  pose proof only_statistics_display.
  unfold report_if_due, reset_frame_stats. auto 10 with only_stats.
Qed.

(** ** Fields the statistics update leaves alone *)

Lemma foldl_count_card_fields items self :
  update_interval (foldl count_card self items) = update_interval self
  ∧ last_update_time (foldl count_card self items) = last_update_time self
  ∧ fps_counter (foldl count_card self items) = fps_counter self.
Proof.
  revert self. induction items as [|item items IH]; intros self; [done|].
  cbn [foldl]. destruct (IH (count_card self item)) as (-> & -> & ->).
  by destruct item.
Qed.

Lemma update_statistics_fields self tally :
  update_interval (update_statistics self tally) = update_interval self
  ∧ last_update_time (update_statistics self tally) = last_update_time self
  ∧ fps_counter (update_statistics self tally) = fps_counter self.
Proof.
  unfold update_statistics.
  by destruct (foldl_count_card_fields (map_to_list tally)
                 (set_total_frames_processed (total_frames_processed self + 1) self))
    as (-> & -> & ->).
Qed.

(** ** The session loop *)

Section session.
Context {contour : Type} {CA : ContourAnalysis contour}.

Lemma only_statistics_loop_body duration it :
  only_statistics (loop_body duration it).
Proof.
  pose proof only_statistics_report.
  unfold loop_body, should_stop, capture_and_process_frame.
  auto 10 with only_stats.
Qed.

Lemma only_statistics_while_true duration script :
  only_statistics (while_true duration script).
Proof.
  induction script as [|it rest IH]; simpl.
  - apply only_statistics_lift.
  - apply only_statistics_bind; [apply only_statistics_loop_body|].
    intros []; [apply only_statistics_ret | done].
Qed.

(** [run] in terms of how its loop went. *)
Lemma run_after_loop duration t_start script t_final self :
  run duration t_start script t_final self
  = let '(r, self1, out1) := while_true duration script (started t_start self) in
    match r with
    | Ok _ => (Ok tt, self1, Print Banner :: out1 ++ final_block t_final self1)
    | Raise KeyboardInterrupt =>
        (Ok tt, self1,
         Print Banner :: out1 ++ Print Stopping :: final_block t_final self1)
    | Raise e =>
        (Raise e, self1, Print Banner :: out1 ++ final_block t_final self1)
    | Pending => (Pending, self1, Print Banner :: out1)
    end.
Proof.
  unfold run, try_finally, except_KeyboardInterrupt, display_statistics, started.
  run_M.
  destruct (while_true duration script _) as [[[[]|e|] self1] out1]; simpl;
    [done| |done].
  destruct e; simpl; [by rewrite <-(assoc _) | done..].
Qed.

Lemma should_stop_falsy duration now self :
  truthy duration = false → should_stop duration now self = (Ok false, self, []).
Proof.
  intros Hd. unfold should_stop. destruct duration as [d|]; [|done]. by rewrite Hd.
Qed.

Lemma capture_and_process_frame_ok frame counts self :
  detect_cards_in_frame frame = Ok counts →
  capture_and_process_frame (Ok frame) self
  = (Ok (frame, counts), update_statistics self counts, []).
Proof. intros Hc. unfold capture_and_process_frame. run_M. by rewrite Hc. Qed.

Lemma loop_body_uneventful duration it self last :
  truthy duration = false → uneventful it →
  last_update_time self = Some last → (0 < update_interval self)%Qc →
  ∃ self' out,
    loop_body duration it self = (Ok false, self', out)
    ∧ total_frames_processed self' = total_frames_processed self + 1
    ∧ (∃ last', last_update_time self' = Some last')
    ∧ update_interval self' = update_interval self.
Proof.
  intros Hd [[frame Hg] Hs] Hl Hpos.
  destruct (detect_cards_in_frame_total frame) as [counts Hc].
  pose proof (capture_and_process_frame_ok frame counts self Hc) as Hcap.
  set (self1 := set_fps_counter (fps_counter (update_statistics self counts) + 1)
                  (update_statistics self counts)).
  destruct (update_statistics_fields self counts) as (Hi1 & Hl1 & _).
  assert (last_update_time self1 = Some last) as Hl' by (by rewrite <-Hl, <-Hl1).
  assert (update_interval self1 = update_interval self) as Hi' by done.
  assert (total_frames_processed self1 = total_frames_processed self + 1) as Hf'
    by apply update_statistics_frames.
  assert (∃ self' out,
            report_if_due (time_after_frame it) (time_at_display it) self1
            = (Ok tt, self', out)
            ∧ total_frames_processed self' = total_frames_processed self1
            ∧ (∃ last', last_update_time self' = Some last')
            ∧ update_interval self' = update_interval self1)
    as (self2 & out2 & Hrep & Hf2 & Hl2 & Hi2).
  { destruct (decide (update_interval self1 ≤ time_after_frame it - last)%Qc)
      as [Hdt|Hdt].
    - rewrite (report_if_due_boundary self1 _ _ last Hl' Hdt); [simpl; eauto 10|].
      intros Hz. rewrite Hz, Hi' in Hdt. by apply Qcle_not_lt in Hdt.
    - rewrite (report_if_due_early self1 _ _ last Hl'); [|by apply Qcnot_le_lt].
      eauto 10. }
  exists self2, out2. split; [|by rewrite Hf2, Hi2].
  unfold loop_body. run_M. rewrite (should_stop_falsy _ _ _ Hd), Hg, Hcap.
  fold self1. rewrite Hrep, Hs. simpl. by rewrite app_nil_r.
Qed.

Lemma while_true_uneventful duration script self last :
  truthy duration = false → Forall uneventful script →
  last_update_time self = Some last → (0 < update_interval self)%Qc →
  ∃ self' out,
    while_true duration script self = (Pending, self', out)
    ∧ total_frames_processed self'
      = total_frames_processed self + Z.of_nat (length script).
Proof.
  intros Hd Hs. revert self last.
  induction Hs as [|it rest Hit _ IH]; intros self last Hl Hpos; simpl.
  - exists self, []. split; [done | lia].
  - destruct (loop_body_uneventful duration it self last Hd Hit Hl Hpos)
      as (self1 & out1 & Hbody & Hf & [last1 Hl1] & Hi).
    destruct (IH self1 last1 Hl1) as (self2 & out2 & Hrest & Hf2); [by rewrite Hi|].
    unfold mbind, M_bind, bind_M. rewrite Hbody, Hrest.
    eexists _, _. split; [done | lia].
Qed.

(** C3 (what the code does). With a duration of 0 the duration check never
    fires: over any number of turns in which nothing raises, [run] is still
    in its loop, has processed one frame per turn and has printed no final
    statistics. *)
Theorem zero_duration_never_expires script t_start t_final self :
  (0 < update_interval self)%Qc → Forall uneventful script →
  let res := run (Some 0%Qc) t_start script t_final self in
  res.1.1 = Pending
  ∧ (Print FinalHeader ∉ res.2)
  ∧ total_frames_processed res.1.2
    = total_frames_processed self + Z.of_nat (length script).
Proof.
  intros Hpos Hs res. subst res. rewrite run_after_loop.
  destruct (while_true_uneventful (Some 0%Qc) script (started t_start self) t_start)
    as (self' & out & Hloop & Hf); [done..|].
  pose proof (only_statistics_while_true (Some 0%Qc) script (started t_start self))
    as Hout.
  rewrite Hloop in *. simpl in *.
  split; [done|]. split; [|done].
  apply not_elem_of_cons. split; [done|]. by apply final_header_not_statistics.
Qed.

(** The three ways out of the loop, at its first turn. *)
Lemma loop_body_expired duration d it self t0 :
  duration = Some d → d ≠ 0%Qc → session_start_time self = Some t0 →
  (d ≤ time_at_check it - t0)%Qc →
  loop_body duration it self = (Ok true, self, []).
Proof.
  intros -> Hd Ht0 Hle. unfold loop_body, should_stop. simpl.
  apply Qceqb_ne in Hd. rewrite Hd. simpl. run_M. rewrite Ht0. simpl.
  apply Qcgeb_ge in Hle. by rewrite Hle.
Qed.

Lemma loop_body_raises duration it self e :
  truthy duration = false → grabbed it = Raise e →
  loop_body duration it self = (Raise e, self, []).
Proof.
  intros Hd Hg. unfold loop_body, capture_and_process_frame. run_M.
  by rewrite (should_stop_falsy _ _ _ Hd), Hg.
Qed.

Lemma run_stops_when_expired d t_start it rest t_final self :
  d ≠ 0%Qc → (d ≤ time_at_check it - t_start)%Qc →
  run (Some d) t_start (it :: rest) t_final self
  = (Ok tt, started t_start self,
     Print Banner :: final_block t_final (started t_start self)).
Proof.
  intros Hd Hle. rewrite run_after_loop. simpl. unfold mbind, M_bind, bind_M.
  by rewrite (loop_body_expired (Some d) d it (started t_start self) t_start).
Qed.

Lemma run_stops_on_interrupt duration t_start it rest t_final self :
  truthy duration = false → grabbed it = Raise KeyboardInterrupt →
  run duration t_start (it :: rest) t_final self
  = (Ok tt, started t_start self,
     Print Banner :: Print Stopping :: final_block t_final (started t_start self)).
Proof.
  intros Hd Hg. rewrite run_after_loop. simpl. unfold mbind, M_bind, bind_M.
  by rewrite (loop_body_raises duration it _ KeyboardInterrupt Hd Hg).
Qed.

Lemma run_passes_grab_error_on duration t_start it rest t_final self :
  truthy duration = false → grabbed it = Raise ScreenShotError →
  run duration t_start (it :: rest) t_final self
  = (Raise ScreenShotError, started t_start self,
     Print Banner :: final_block t_final (started t_start self)).
Proof.
  intros Hd Hg. rewrite run_after_loop. simpl. unfold mbind, M_bind, bind_M.
  by rewrite (loop_body_raises duration it _ ScreenShotError Hd Hg).
Qed.

End session.

(** ** Interrupts at any statement of [run] *)

Section interrupts.
Context {contour : Type} {CA : ContourAnalysis contour}.

Lemma only_statistics_interruptible_report tn :
  only_statistics (interruptible_report tn).
Proof.
  pose proof only_statistics_display.
  unfold interruptible_report, reset_frame_stats. auto 20 with only_stats.
Qed.

Lemma only_statistics_interruptible_body duration tn :
  only_statistics (interruptible_body duration tn).
Proof.
  pose proof only_statistics_interruptible_report.
  unfold interruptible_body, should_stop, interruptible_capture.
  auto 20 with only_stats.
Qed.

Lemma only_statistics_interruptible_loop duration script :
  only_statistics (interruptible_loop duration script).
Proof.
  induction script as [|tn rest IH]; simpl.
  - apply only_statistics_lift.
  - apply only_statistics_bind; [apply only_statistics_interruptible_body|].
    intros []; [apply only_statistics_ret | done].
Qed.

(** A point at which nothing lands leaves the method as it is. *)
Lemma lift_passed {A} (f : unit → M A) self :
  (lift (Ok tt) ≫= f) self = f tt self.
Proof. run_M. by destruct (f tt self) as [[r self1] out1]. Qed.

Lemma bind_M_ext {A B} (m m' : M A) (f f' : A → M B) self :
  m self = m' self → (∀ a self1, f a self1 = f' a self1) →
  (m ≫= f) self = (m' ≫= f') self.
Proof.
  intros Hm Hf. unfold mbind, M_bind, bind_M. rewrite Hm.
  destruct (m' self) as [[[a|e|] self1] out1]; [|done..]. by rewrite Hf.
Qed.

Lemma interruptible_report_undisturbed it self :
  interruptible_report (undisturbed it) self
  = report_if_due (time_after_frame it) (time_at_display it) self.
Proof.
  unfold interruptible_report, report_if_due. simpl.
  apply bind_M_ext; [done|]. intros self0 self1.
  apply bind_M_ext; [done|]. intros last self2.
  destruct (Qcgeb _ _); [|done].
  apply bind_M_ext; [done|]. intros fps self3.
  apply bind_M_ext; [done|]. intros [] self4. rewrite lift_passed.
  apply bind_M_ext; [done|]. intros [] self5. rewrite lift_passed.
  apply bind_M_ext; [done|]. intros [] self6. rewrite lift_passed.
  apply bind_M_ext; [done|]. intros [] self7. by rewrite lift_passed.
Qed.

Lemma interruptible_body_undisturbed duration it self :
  interruptible_body duration (undisturbed it) self = loop_body duration it self.
Proof.
  unfold interruptible_body, loop_body. simpl. rewrite lift_passed.
  apply bind_M_ext; [done|]. intros [] self1; [done|].
  apply bind_M_ext; [done|]. intros _ self2. rewrite lift_passed.
  apply bind_M_ext; [done|]. intros [] self3. rewrite lift_passed.
  apply bind_M_ext; [apply interruptible_report_undisturbed | done].
Qed.

Lemma interruptible_loop_undisturbed duration script self :
  interruptible_loop duration (undisturbed <$> script) self
  = while_true duration script self.
Proof.
  revert self. induction script as [|it rest IH]; intros self; [done|].
  rewrite fmap_cons. cbn [interruptible_loop while_true].
  apply bind_M_ext; [apply interruptible_body_undisturbed|].
  intros [] self1; [done | apply IH].
Qed.

(** With nothing landing outside the grab and the sleep, the session is the
    one of [run]. *)
Lemma interruptible_run_undisturbed duration t_start script t_final self :
  interruptible_run duration t_start (undisturbed <$> script) t_final
    undisturbed_ending self
  = run duration t_start script t_final self.
Proof.
  unfold interruptible_run, run. simpl. rewrite lift_passed.
  apply bind_M_ext; [done|]. intros [] self1. rewrite lift_passed.
  apply bind_M_ext; [done|]. intros [] self2.
  apply bind_M_ext; [done|]. intros [] self3.
  unfold try_finally, except_KeyboardInterrupt.
  rewrite interruptible_loop_undisturbed.
  destruct (while_true duration script self3) as [[[[]|e|] self4] out4];
    [| |done].
  - by rewrite !lift_passed.
  - destruct e; by rewrite !lift_passed.
Qed.

(** [interruptible_run] in terms of how its loop went, when nothing lands
    before the loop is entered. *)
Lemma interruptible_run_after_loop duration t_start script t_final e self :
  at_banner e = Ok tt → at_start e = Ok tt →
  interruptible_run duration t_start script t_final e self
  = let '(r, self1, out1) :=
      except_KeyboardInterrupt (interruptible_loop duration script)
        (lift (at_stopping e);; emit (Print Stopping)) (started t_start self) in
    match r with
    | Pending => (Pending, self1, Print Banner :: out1)
    | _ =>
        match at_final_header e with
        | Ok _ =>
            match at_final_display e with
            | Ok _ =>
                match at_session_ended e with
                | Ok _ => (r, self1, Print Banner :: out1 ++ final_block t_final self1)
                | Raise x =>
                    (Raise x, self1,
                     Print Banner :: out1
                       ++ [Print FinalHeader; Statistics (take_snapshot t_final self1)])
                | Pending =>
                    (Pending, self1,
                     Print Banner :: out1
                       ++ [Print FinalHeader; Statistics (take_snapshot t_final self1)])
                end
            | Raise x => (Raise x, self1, Print Banner :: out1 ++ [Print FinalHeader])
            | Pending => (Pending, self1, Print Banner :: out1 ++ [Print FinalHeader])
            end
        | Raise x => (Raise x, self1, Print Banner :: out1)
        | Pending => (Pending, self1, Print Banner :: out1)
        end
    end.
Proof.
  intros Hb Hs.
  unfold interruptible_run, try_finally, display_statistics, started.
  rewrite Hb, Hs. run_M.
  destruct (except_KeyboardInterrupt _ _ _) as [[r self1] out1].
  destruct r as [[]|x|]; [| |done];
    destruct (at_final_header e) as [[]|?|]; simpl; rewrite ?app_nil_r; try done;
    destruct (at_final_display e) as [[]|?|]; simpl; try done;
    destruct (at_session_ended e) as [[]|?|]; simpl; done.
Qed.

Lemma handled_loop_keeps_final_header duration script e self :
  Print FinalHeader ∉
    (except_KeyboardInterrupt (interruptible_loop duration script)
       (lift (at_stopping e);; emit (Print Stopping)) self).2.
Proof.
  unfold except_KeyboardInterrupt.
  pose proof (only_statistics_interruptible_loop duration script self) as Hloop.
  destruct (interruptible_loop duration script self) as [[r self1] out1].
  simpl in Hloop. apply final_header_not_statistics in Hloop.
  destruct r as [[]|x|]; [done| |done]. destruct x; [|done..].
  run_M. destruct (at_stopping e) as [[]|?|]; simpl; rewrite ?app_nil_r; [|done..].
  rewrite not_elem_of_app, not_elem_of_cons.
  split; [done|]. split; [done | apply not_elem_of_nil].
Qed.

(** C7 (as amended).  Once the loop has been entered and [run] is over,
    however the loop was left (the duration expired, Ctrl-C at any statement
    of the loop, also a second one while the stopping message is printed, or
    an error of the frame grab or any other exception on its way up), the
    final header and the final statistics block of the detector as the loop
    left it are printed, exactly once and last but for the closing line,
    provided nothing lands in the [finally] block before the final statistics
    are printed. *)
Theorem final_snapshot_unless_interrupted duration t_start script t_final e self :
  at_banner e = Ok tt → at_start e = Ok tt →
  at_final_header e = Ok tt → at_final_display e = Ok tt →
  let res := interruptible_run duration t_start script t_final e self in
  res.1.1 ≠ Pending →
  ∃ pre post,
    res.2 = pre ++ [Print FinalHeader; Statistics (take_snapshot t_final res.1.2)]
                ++ post
    ∧ (Print FinalHeader ∉ pre)
    ∧ (post = [Print SessionEnded] ∨ post = []).
Proof.
  intros Hb Hs Hh Hd res. subst res.
  rewrite interruptible_run_after_loop by done. rewrite Hh, Hd.
  pose proof (handled_loop_keeps_final_header duration script e
                (started t_start self)) as Hpre.
  destruct (except_KeyboardInterrupt _ _ _) as [[r self1] out1]. simpl in Hpre.
  assert (Print FinalHeader ∉ Print Banner :: out1) as Hpre'
    by (by apply not_elem_of_cons).
  destruct r as [[]|x|]; [| |done];
    destruct (at_session_ended e) as [[]|?|]; simpl; try done; intros _;
    exists (Print Banner :: out1); eauto.
Qed.

End interrupts.

Lemma final_snapshot_unless_interrupted_witness :
  ∃ pre post,
    (interruptible_run (CA := measured [dark_card]) None (Qc_of_Z 100)
       [undisturbed (quiet_turn 110); interrupted_at_display 111] (Qc_of_Z 112)
       interrupted_handler (__init__ 1%Qc 1)).2
    = pre ++ [Print FinalHeader;
              Statistics (take_snapshot (Qc_of_Z 112)
                (interruptible_run (CA := measured [dark_card]) None (Qc_of_Z 100)
                   [undisturbed (quiet_turn 110); interrupted_at_display 111]
                   (Qc_of_Z 112) interrupted_handler (__init__ 1%Qc 1)).1.2)]
          ++ post
    ∧ (Print FinalHeader ∉ pre)
    ∧ (post = [Print SessionEnded] ∨ post = []).
Proof.
  apply (final_snapshot_unless_interrupted (CA := measured [dark_card]) None
           (Qc_of_Z 100) [undisturbed (quiet_turn 110); interrupted_at_display 111]
           (Qc_of_Z 112) interrupted_handler (__init__ 1%Qc 1));
    [reflexivity | reflexivity | reflexivity | reflexivity | by vm_compute].
Defined.

(** C7, as stated, fails.  The duration expires, or Ctrl-C stops the loop,
    and a Ctrl-C lands while the final statistics are about to be printed:
    [run] is left with the KeyboardInterrupt after the final header, and no
    statistics block has been printed. *)
Lemma final_snapshot_lost_to_interrupt :
  ((interruptible_run (CA := measured [dark_card]) (Some (Qc_of_Z 15))
      (Qc_of_Z 100) [undisturbed (quiet_turn 110); undisturbed (quiet_turn 120)]
      (Qc_of_Z 121) interrupted_ending (__init__ (Qc_of_Z 60) 1)).1.1
   = Raise KeyboardInterrupt
   ∧ (interruptible_run (CA := measured [dark_card]) (Some (Qc_of_Z 15))
        (Qc_of_Z 100) [undisturbed (quiet_turn 110); undisturbed (quiet_turn 120)]
        (Qc_of_Z 121) interrupted_ending (__init__ (Qc_of_Z 60) 1)).2
     = [Print Banner; Print FinalHeader])
  ∧ ((interruptible_run (CA := measured [dark_card]) None (Qc_of_Z 100)
        [undisturbed (quiet_turn 110); undisturbed (interrupted_turn 111)]
        (Qc_of_Z 112) interrupted_ending (__init__ (Qc_of_Z 60) 1)).1.1
     = Raise KeyboardInterrupt
     ∧ (interruptible_run (CA := measured [dark_card]) None (Qc_of_Z 100)
          [undisturbed (quiet_turn 110); undisturbed (interrupted_turn 111)]
          (Qc_of_Z 112) interrupted_ending (__init__ (Qc_of_Z 60) 1)).2
       = [Print Banner; Print Stopping; Print FinalHeader]).
Proof. split; split; by vm_compute. Qed.

Lemma zero_duration_never_expires_witness :
  (run (CA := measured [dark_card]) (Some 0%Qc) (Qc_of_Z 100)
     [quiet_turn 110; quiet_turn 120; quiet_turn 130] (Qc_of_Z 140)
     (__init__ 1%Qc 1)).1.1 = Pending
  ∧ (Print FinalHeader ∉
       (run (CA := measured [dark_card]) (Some 0%Qc) (Qc_of_Z 100)
          [quiet_turn 110; quiet_turn 120; quiet_turn 130] (Qc_of_Z 140)
          (__init__ 1%Qc 1)).2)
  ∧ total_frames_processed
      (run (CA := measured [dark_card]) (Some 0%Qc) (Qc_of_Z 100)
         [quiet_turn 110; quiet_turn 120; quiet_turn 130] (Qc_of_Z 140)
         (__init__ 1%Qc 1)).1.2
    = 0 + Z.of_nat 3.
Proof.
  apply (zero_duration_never_expires (CA := measured [dark_card])
           [quiet_turn 110; quiet_turn 120; quiet_turn 130]
           (Qc_of_Z 100) (Qc_of_Z 140) (__init__ 1%Qc 1)).
  - by vm_compute.
  - repeat constructor; by eexists.
Defined.

(** * Further properties *)

(** ** What one statistics update adds *)

Lemma count_for_absent l items : l ∉ items.*1 → count_for l items = 0.
Proof.
  induction items as [|[k c] items IH]; simpl; [done|].
  rewrite not_elem_of_cons. intros [Hne Hnotin].
  rewrite decide_False by done. by apply IH.
Qed.

Lemma count_for_map_to_list (m : gmap string Z) l :
  count_for l (map_to_list m) = getitem m l.
Proof.
  unfold getitem. rewrite <-(list_to_map_to_list m) at 2.
  pose proof (NoDup_fst_map_to_list m) as Hnd.
  induction (map_to_list m) as [|[k c] items IH]; simpl; [done|].
  inversion_clear Hnd as [|? ? Hk Hnd']. simpl.
  destruct (decide (k = l)) as [->|Hne].
  - rewrite lookup_insert_eq. simpl. rewrite count_for_absent; [lia | done].
  - rewrite lookup_insert_ne by done. by apply IH.
Qed.

Lemma foldl_count_card_counts items self l :
  getitem (card_counts (foldl count_card self items)) l
  = getitem (card_counts self) l + count_for l items.
Proof.
  revert self. induction items as [|[k c] items IH]; intros self; simpl; [lia|].
  rewrite IH. simpl. unfold getitem at 1.
  destruct (decide (k = l)) as [->|Hne].
  - rewrite lookup_insert_eq. simpl. lia.
  - by rewrite lookup_insert_ne by done.
Qed.

Lemma foldl_count_card_total items self :
  total_cards_detected (foldl count_card self items)
  = total_cards_detected self + foldr (λ item acc, item.2 + acc) 0 items.
Proof.
  revert self. induction items as [|[k c] items IH]; intros self; simpl; [lia|].
  rewrite IH. simpl. lia.
Qed.

Lemma sum_counts_map_to_list (m : gmap string Z) :
  sum_counts m = foldr (λ item acc, item.2 + acc) 0 (map_to_list m).
Proof.
  unfold sum_counts. rewrite map_fold_foldr.
  induction (map_to_list m) as [|[k c] items IH]; simpl; [done|]. by rewrite IH.
Qed.

Lemma update_statistics_getitem self tally l :
  getitem (card_counts (update_statistics self tally)) l
  = getitem (card_counts self) l + getitem tally l.
Proof.
  unfold update_statistics.
  by rewrite foldl_count_card_counts, count_for_map_to_list.
Qed.

Lemma update_statistics_total self tally :
  total_cards_detected (update_statistics self tally)
  = total_cards_detected self + sum_counts tally.
Proof.
  unfold update_statistics.
  by rewrite foldl_count_card_total, sum_counts_map_to_list.
Qed.

Lemma foldl_count_card_dom items self :
  dom (card_counts (foldl count_card self items))
  = dom (card_counts self) ∪ list_to_set items.*1.
Proof.
  revert self. induction items as [|[k c] items IH]; intros self; simpl.
  - by rewrite (right_id_L ∅ (∪)).
  - rewrite IH. simpl. rewrite dom_insert_L.
    by rewrite (comm_L (∪) {[k]}), <-(assoc_L (∪)).
Qed.

Lemma update_statistics_dom self tally :
  dom (card_counts (update_statistics self tally))
  = dom (card_counts self) ∪ dom tally.
Proof.
  unfold update_statistics. rewrite foldl_count_card_dom. simpl. f_equal.
  rewrite <-(list_to_map_to_list tally) at 2. by rewrite dom_list_to_map_L.
Qed.

(** X1. One statistics update adds, label by label, the count of the tally to
    the cumulative count (a label missing on either side counting as 0), and
    adds the sum of the tally to the total of detected cards. *)
Theorem update_statistics_accumulates self tally :
  (∀ l, getitem (card_counts (update_statistics self tally)) l
        = getitem (card_counts self) l + getitem tally l)
  ∧ total_cards_detected (update_statistics self tally)
    = total_cards_detected self + sum_counts tally.
Proof.
  split; [intros l; apply update_statistics_getitem|].
  apply update_statistics_total.
Qed.

(** X2. After a statistics update the cumulative counts have an entry for
    exactly the labels that had one before or have one in the tally: entries
    are made on first occurrence (also for a count of 0) and never removed. *)
Theorem update_statistics_labels self tally :
  dom (card_counts (update_statistics self tally))
  = dom (card_counts self) ∪ dom tally
  ∧ ∀ l, card_counts (update_statistics self tally) !! l = None
         ↔ card_counts self !! l = None ∧ tally !! l = None.
Proof.
  split; [apply update_statistics_dom|]. intros l.
  rewrite <-!not_elem_of_dom, update_statistics_dom, not_elem_of_union. done.
Qed.

(** ** What the contour loop counts *)

Lemma _identify_card_type_labels roi l :
  _identify_card_type roi = Some l → l ∈ labels.
Proof.
  unfold _identify_card_type, labels. repeat case_match; intros [= <-];
    rewrite !elem_of_cons; auto.
Qed.

Section detection.
Context {contour : Type} {CA : ContourAnalysis contour}.
Implicit Types (frame : image) (c : contour) (counts : gmap string Z).

Lemma detect_loop_cons frame c rest counts :
  detect_loop frame (c :: rest) counts
  = detect_loop frame rest (tally_step frame counts c).
Proof.
  simpl. unfold tally_step, counted_label.
  destruct (candidate_region_total frame c) as [region ->]. simpl.
  destruct region as [roi|]; [|done].
  destruct (_identify_card_type roi) as [l|] eqn:Hl; [|done].
  apply _identify_card_type_labels in Hl. unfold labels in Hl.
  rewrite !elem_of_cons, elem_of_nil in Hl.
  by destruct Hl as [->|[->|[->|[]]]].
Qed.

Lemma detect_loop_foldl frame contours counts :
  detect_loop frame contours counts
  = Ok (foldl (tally_step frame) counts contours).
Proof.
  revert counts. induction contours as [|c rest IH]; intros counts; [done|].
  by rewrite detect_loop_cons, IH.
Qed.

Lemma tally_step_well_formed frame counts c :
  well_formed_tally counts → well_formed_tally (tally_step frame counts c).
Proof.
  intros Hwf. unfold tally_step, counted_label.
  destruct (candidate_region frame c) as [[roi|]| |]; try done.
  destruct (_identify_card_type roi) as [l|] eqn:Hl; [|done].
  intros l' n. destruct (decide (l = l')) as [<-|Hne].
  - rewrite lookup_insert_eq. intros [= <-].
    split; [by eapply _identify_card_type_labels|].
    unfold getitem. destruct (counts !! l) as [m|] eqn:Hm; simpl; [|lia].
    destruct (Hwf l m Hm). lia.
  - rewrite lookup_insert_ne by done. apply Hwf.
Qed.

Lemma foldl_tally_step_well_formed frame contours counts :
  well_formed_tally counts →
  well_formed_tally (foldl (tally_step frame) counts contours).
Proof.
  revert counts. induction contours as [|c rest IH]; intros counts Hwf; [done|].
  by apply IH, tally_step_well_formed.
Qed.

Lemma detect_cards_in_frame_well_formed frame tally :
  detect_cards_in_frame frame = Ok tally → well_formed_tally tally.
Proof.
  unfold detect_cards_in_frame. rewrite detect_loop_foldl. intros [= <-].
  apply foldl_tally_step_well_formed. intros l n. by rewrite lookup_empty.
Qed.

Lemma tally_step_getitem frame counts c l :
  getitem (tally_step frame counts c) l
  = getitem counts l + (if decide (counted_label frame c = Some l) then 1 else 0).
Proof.
  unfold tally_step. destruct (counted_label frame c) as [l'|].
  - unfold getitem at 1. destruct (decide (l' = l)) as [->|Hne].
    + by rewrite lookup_insert_eq, decide_True by done.
    + rewrite lookup_insert_ne, decide_False by congruence. unfold getitem. lia.
  - rewrite decide_False by done. lia.
Qed.

Lemma tally_step_sum frame counts c :
  sum_counts (tally_step frame counts c)
  = sum_counts counts
    + (match counted_label frame c with Some _ => 1 | None => 0 end).
Proof.
  unfold tally_step. destruct (counted_label frame c) as [l|]; [|lia].
  rewrite sum_counts_insert, (sum_counts_delete counts l). lia.
Qed.

Lemma foldl_tally_step_getitem frame contours counts l :
  getitem (foldl (tally_step frame) counts contours) l
  = getitem counts l
    + Z.of_nat (length (filter (λ c, counted_label frame c = Some l) contours)).
Proof.
  revert counts. induction contours as [|c rest IH]; intros counts; simpl; [lia|].
  rewrite IH, tally_step_getitem, filter_cons.
  destruct (decide (counted_label frame c = Some l)); simpl; lia.
Qed.

Lemma foldl_tally_step_sum frame contours counts :
  sum_counts (foldl (tally_step frame) counts contours)
  = sum_counts counts
    + Z.of_nat (length (filter (λ c, is_Some (counted_label frame c)) contours)).
Proof.
  revert counts. induction contours as [|c rest IH]; intros counts; simpl; [lia|].
  rewrite IH, tally_step_sum, filter_cons.
  destruct (counted_label frame c) as [l|] eqn:Hl.
  - rewrite decide_True by eauto. simpl. lia.
  - rewrite decide_False by (by intros [? [=]]). lia.
Qed.

Lemma detect_cards_in_frame_sum frame tally :
  detect_cards_in_frame frame = Ok tally →
  sum_counts tally
  = Z.of_nat (length (filter (λ c, is_Some (counted_label frame c))
                        (find_contours frame))).
Proof.
  unfold detect_cards_in_frame. rewrite detect_loop_foldl. intros [= <-].
  by rewrite foldl_tally_step_sum, sum_counts_empty.
Qed.

Lemma tally_step_comm frame counts c1 c2 :
  tally_step frame (tally_step frame counts c1) c2
  = tally_step frame (tally_step frame counts c2) c1.
Proof.
  unfold tally_step.
  destruct (counted_label frame c1) as [l1|], (counted_label frame c2) as [l2|];
    try done.
  destruct (decide (l1 = l2)) as [->|Hne]; [done|].
  unfold getitem. rewrite !lookup_insert_ne by done. by apply insert_insert_ne.
Qed.

Lemma foldl_tally_step_permutation frame contours contours' :
  contours ≡ₚ contours' →
  ∀ counts, foldl (tally_step frame) counts contours
            = foldl (tally_step frame) counts contours'.
Proof.
  induction 1 as [|c l l' _ IH|c1 c2 l|l l' l'' _ IH1 _ IH2]; intros counts; simpl.
  - done.
  - apply IH.
  - by rewrite tally_step_comm.
  - by rewrite IH1.
Qed.

(** X3. Every entry of the tally that detection returns is for one of the
    three labels "heart_or_diamond", "spade_or_club", "unknown_card" and has a
    count of at least 1. *)
Theorem detected_tally_well_formed frame tally :
  detect_cards_in_frame frame = Ok tally →
  ∀ l n, tally !! l = Some n → l ∈ labels ∧ 1 ≤ n.
Proof. apply detect_cards_in_frame_well_formed. Qed.

(** X4. The tally of the contour loop does not depend on the order in which
    the contours are visited. *)
Theorem detect_loop_order_independent frame contours contours' counts :
  contours ≡ₚ contours' →
  detect_loop frame contours counts = detect_loop frame contours' counts.
Proof.
  intros Hp. rewrite !detect_loop_foldl.
  by rewrite (foldl_tally_step_permutation frame contours contours' Hp).
Qed.

(** X5. The tally that detection returns holds, for every label, the number
    of contours that pass both filters and whose region gets that label; its
    sum is the number of contours counted, at most the number of contours. *)
Theorem detected_tally_counts frame tally :
  detect_cards_in_frame frame = Ok tally →
  (∀ l, getitem tally l
        = Z.of_nat (length (filter (λ c, counted_label frame c = Some l)
                              (find_contours frame))))
  ∧ sum_counts tally
    = Z.of_nat (length (filter (λ c, is_Some (counted_label frame c))
                          (find_contours frame)))
  ∧ sum_counts tally ≤ Z.of_nat (length (find_contours frame)).
Proof.
  intros Ht. rewrite (detect_cards_in_frame_sum frame tally Ht).
  split; [|split; [done|]].
  - revert Ht. unfold detect_cards_in_frame. rewrite detect_loop_foldl.
    intros [= <-] l. by rewrite foldl_tally_step_getitem.
  - pose proof (length_filter (λ c, is_Some (counted_label frame c))
                  (find_contours frame)). lia.
Qed.

End detection.

Lemma detected_tally_well_formed_witness :
  "spade_or_club" ∈ labels ∧ 1 ≤ 1.
Proof.
  apply (detected_tally_well_formed (CA := measured [dark_card]) dark_frame
           {[ "spade_or_club" := 1 ]}); [by vm_compute | reflexivity].
Defined.

Lemma detect_loop_order_independent_witness :
  detect_loop (CA := measured [dark_card; low_contour]) dark_frame
    [dark_card; low_contour] ∅
  = detect_loop (CA := measured [dark_card; low_contour]) dark_frame
      [low_contour; dark_card] ∅.
Proof.
  apply (detect_loop_order_independent (CA := measured [dark_card; low_contour])).
  apply perm_swap.
Defined.

Lemma detected_tally_counts_witness :
  sum_counts {[ "spade_or_club" := 1 ]}
  ≤ Z.of_nat
      (length (find_contours
                 (ContourAnalysis := measured [dark_card; low_contour])
                 dark_frame)).
Proof.
  apply (detected_tally_counts (CA := measured [dark_card; low_contour])
           dark_frame {[ "spade_or_club" := 1 ]}).
  by vm_compute.
Defined.

(** ** Fractions of integers *)

Lemma Qc_of_Z_pos n : 0 < n → (0 < Qc_of_Z n)%Qc.
Proof. intros Hn. by rewrite <-Z2Qc_inj_0, <-Z2Qc_inj_lt. Qed.

Lemma Qc_of_Z_nonzero n : n ≠ 0 → Qc_of_Z n ≠ 0%Qc.
Proof. intros Hn Hz. by apply Hn, Qc_of_Z_eq_0. Qed.

Lemma fraction_scale p q h :
  q ≠ 0 →
  (Qc_of_Z p / Qc_of_Z q * (Qc_of_Z q * Qc_of_Z h))%Qc = Qc_of_Z (p * h).
Proof.
  intros Hq. rewrite Z2Qc_inj_mul. apply Qc_of_Z_nonzero in Hq. by field.
Qed.

Lemma fraction_le p q w h :
  0 < q → 0 < h →
  (Qc_of_Z p / Qc_of_Z q ≤ Qc_of_Z w / Qc_of_Z h)%Qc ↔ p * h ≤ w * q.
Proof.
  intros Hq Hh.
  rewrite (Qcmult_le_mono_pos_r _ _ (Qc_of_Z q * Qc_of_Z h)%Qc).
  - rewrite fraction_scale by lia.
    rewrite (Qcmult_comm (Qc_of_Z q)), fraction_scale by lia.
    by rewrite <-Z2Qc_inj_le.
  - rewrite <-Z2Qc_inj_mul. apply Qc_of_Z_pos. lia.
Qed.

Lemma fraction_lt p q w h :
  0 < q → 0 < h →
  (Qc_of_Z p / Qc_of_Z q < Qc_of_Z w / Qc_of_Z h)%Qc ↔ p * h < w * q.
Proof.
  intros Hq Hh.
  rewrite (Qcmult_lt_mono_pos_r _ _ (Qc_of_Z q * Qc_of_Z h)%Qc).
  - rewrite fraction_scale by lia.
    rewrite (Qcmult_comm (Qc_of_Z q)), fraction_scale by lia.
    by rewrite <-Z2Qc_inj_lt.
  - rewrite <-Z2Qc_inj_mul. apply Qc_of_Z_pos. lia.
Qed.

Lemma half_fraction : Q2Qc 0.5 = (Qc_of_Z 1 / Qc_of_Z 2)%Qc.
Proof. apply Qc_is_canon. reflexivity. Qed.

Lemma four_fifths_fraction : Q2Qc 0.8 = (Qc_of_Z 4 / Qc_of_Z 5)%Qc.
Proof. apply Qc_is_canon. reflexivity. Qed.

Lemma integer_fraction n : Qc_of_Z n = (Qc_of_Z n / Qc_of_Z 1)%Qc.
Proof. rewrite Z2Qc_inj_1. by rewrite (right_id 1%Qc Qcdiv). Qed.

(** ** The filters in integers, and the region cut out *)

Section region.
Context {contour : Type} {CA : ContourAnalysis contour}.
Implicit Types (frame : image) (c : contour).

Lemma rejected_iff frame c : rejected frame c ↔ ¬ admitted frame c.
Proof.
  unfold rejected, admitted.
  destruct (candidate_region_total frame c) as [[roi|] ->].
  - split; [done | intros []; eauto].
  - split; [by intros _ [? [=]] | done].
Qed.

Lemma admitted_integers frame c x y w h :
  boundingRect c = (x, y, w, h) →
  admitted frame c ↔
    (Qc_of_Z 1000 ≤ contourArea c ≤ Qc_of_Z 100000)%Qc
    ∧ 0 < h ∧ h ≤ 2 * w ∧ 5 * w ≤ 4 * h.
Proof.
  intros Hrect. destruct (decide (0 < h)) as [Hh|Hh].
  - rewrite (admitted_iff frame c x y w h Hrect Hh).
    rewrite half_fraction, four_fifths_fraction.
    rewrite !fraction_le by lia.
    split; [intros (Ha & H1 & H2) | intros (Ha & _ & H1 & H2)];
      (split; [done | lia]).
  - split; [|intros (_ & ? & _); lia].
    intros [roi Hroi]. exfalso. revert Hroi.
    rewrite (candidate_region_eq frame c x y w h 0%Qc Hrect)
      by (apply aspect_ratio_degenerate; lia).
    by rewrite decide_False by (by intros [_ [? _]]).
Qed.

(** X6. Without any division: a contour with bounding rectangle w by h passes
    the filters exactly when 1000 <= area <= 100000, h > 0, h <= 2 w and
    5 w <= 4 h; every other contour is skipped, none raises. *)
Theorem admitted_in_integers frame c x y w h :
  boundingRect c = (x, y, w, h) →
  (admitted frame c ↔
     (Qc_of_Z 1000 ≤ contourArea c ≤ Qc_of_Z 100000)%Qc
     ∧ 0 < h ∧ h ≤ 2 * w ∧ 5 * w ≤ 4 * h)
  ∧ (rejected frame c ↔
       ¬ ((Qc_of_Z 1000 ≤ contourArea c ≤ Qc_of_Z 100000)%Qc
          ∧ 0 < h ∧ h ≤ 2 * w ∧ 5 * w ≤ 4 * h)).
Proof.
  intros Hrect. split; [by apply (admitted_integers frame c x y w h)|].
  by rewrite rejected_iff, (admitted_integers frame c x y w h Hrect).
Qed.

End region.

Lemma admitted_in_integers_witness :
  admitted (CA := measured [small_contour]) screen small_contour.
Proof.
  apply (admitted_in_integers (CA := measured [small_contour])
           screen small_contour 10 10 32 40); [reflexivity|].
  split; [split; by vm_compute | lia].
Defined.

Lemma slice_lookup {A} (a b : Z) (l : list A) (i : nat) :
  0 ≤ a → 0 ≤ b →
  slice a b l !! i
  = if decide (a + Z.of_nat i < b) then l !! (Z.to_nat a + i)%nat else None.
Proof.
  intros Ha Hb. unfold slice, slice_bound.
  destruct (Z.ltb_spec a 0) as [?|_]; [lia|].
  destruct (Z.ltb_spec b 0) as [?|_]; [lia|].
  set (len := Z.of_nat (length l)).
  destruct (decide (i < Z.to_nat (Z.min b len - Z.min a len))%nat) as [Hi|Hi].
  - rewrite lookup_take_lt, lookup_drop by done.
    rewrite decide_True by lia. f_equal. lia.
  - rewrite lookup_take_ge by lia. case_decide; [|done].
    symmetry. apply lookup_ge_None. lia.
Qed.

Lemma slice_length {A} (a b : Z) (l : list A) :
  0 ≤ a → 0 ≤ b - a → Z.of_nat (length (slice a b l)) ≤ b - a.
Proof.
  intros Ha Hb. unfold slice, slice_bound.
  destruct (Z.ltb_spec a 0) as [?|_]; [lia|].
  destruct (Z.ltb_spec b 0) as [?|_]; [lia|].
  rewrite length_take. lia.
Qed.

Lemma crop_lookup_inside (frame : image) x y w h (i j : nat) :
  0 ≤ x → 0 ≤ y → 0 ≤ w → 0 ≤ h →
  (row ← crop frame x y w h !! i; row !! j)
  = if decide (Z.of_nat i < h ∧ Z.of_nat j < w)
    then row ← frame !! (Z.to_nat y + i)%nat; row !! (Z.to_nat x + j)%nat
    else None.
Proof.
  intros Hx Hy Hw Hh. unfold crop, image in *.
  rewrite list_lookup_fmap, slice_lookup by lia.
  destruct (decide (y + Z.of_nat i < y + h)) as [Hi|Hi].
  - destruct (frame !! _) as [row|]; simpl.
    + rewrite slice_lookup by lia.
      destruct (decide (x + Z.of_nat j < x + w)).
      * by rewrite decide_True by lia.
      * by rewrite decide_False by lia.
    + by case_decide.
  - simpl. by rewrite decide_False by lia.
Qed.

(** X7. For a rectangle with non-negative origin and size, the region cut out
    of the frame has pixel (y + i, x + j) of the frame at (i, j) for i < h and
    j < w, nothing elsewhere, and at most h rows: a rectangle that sticks out
    of the frame is clipped, not an error. *)
Theorem crop_lookup (frame : image) x y w h (i j : nat) :
  0 ≤ x → 0 ≤ y → 0 ≤ w → 0 ≤ h →
  (row ← crop frame x y w h !! i; row !! j)
  = (if decide (Z.of_nat i < h ∧ Z.of_nat j < w)
     then row ← frame !! (Z.to_nat y + i)%nat; row !! (Z.to_nat x + j)%nat
     else None)
  ∧ Z.of_nat (length (crop frame x y w h)) ≤ h.
Proof.
  intros Hx Hy Hw Hh. split; [by apply crop_lookup_inside|].
  unfold crop. rewrite length_fmap.
  pose proof (slice_length y (y + h) frame Hy). lia.
Qed.

Lemma crop_lookup_witness :
  (row ← crop tiny_frame 1 1 2 5 !! 1%nat; row !! 0%nat) = Some (8, 8, 8)
  ∧ Z.of_nat (length (crop tiny_frame 1 1 2 5)) ≤ 5.
Proof.
  apply (crop_lookup tiny_frame 1 1 2 5 1 0); lia.
Defined.

(** ** Classification by pixels *)

Lemma sum_below k c (l : list pixel) :
  Forall (λ q, channel k q < c) l →
  foldr Z.add 0 (channel k <$> l) + Z.of_nat (length l) ≤ c * Z.of_nat (length l).
Proof.
  induction 1 as [|q l Hq _ IH]; [simpl; lia|].
  rewrite fmap_cons. cbn [foldr length].
  rewrite Nat2Z.inj_succ, Z.mul_succ_r. lia.
Qed.

Lemma sum_above k c (l : list pixel) :
  Forall (λ q, c < channel k q) l →
  c * Z.of_nat (length l) + Z.of_nat (length l) ≤ foldr Z.add 0 (channel k <$> l).
Proof.
  induction 1 as [|q l Hq _ IH]; [simpl; lia|].
  rewrite fmap_cons. cbn [foldr length].
  rewrite Nat2Z.inj_succ, Z.mul_succ_r. lia.
Qed.

Lemma sum_uniform k c (l : list pixel) :
  Forall (λ q, channel k q = c) l →
  foldr Z.add 0 (channel k <$> l) = c * Z.of_nat (length l).
Proof.
  induction 1 as [|q l Hq _ IH]; [simpl; lia|].
  rewrite fmap_cons. cbn [foldr length].
  rewrite Nat2Z.inj_succ, Z.mul_succ_r. lia.
Qed.

Lemma length_pixels_pos roi :
  pixels roi ≠ [] → 0 < Z.of_nat (length (pixels roi)).
Proof. destruct (pixels roi); [done | simpl; lia]. Qed.

Lemma mean_of_lt k roi c :
  pixels roi ≠ [] → Forall (λ q, channel k q < c) (pixels roi) →
  (mean_of k roi < Qc_of_Z c)%Qc.
Proof.
  intros Hne Hall. apply length_pixels_pos in Hne. unfold mean_of.
  rewrite (integer_fraction c), fraction_lt by lia.
  pose proof (sum_below k c _ Hall). unfold channel_sum. lia.
Qed.

Lemma mean_of_gt k roi c :
  pixels roi ≠ [] → Forall (λ q, c < channel k q) (pixels roi) →
  (Qc_of_Z c < mean_of k roi)%Qc.
Proof.
  intros Hne Hall. apply length_pixels_pos in Hne. unfold mean_of.
  rewrite (integer_fraction c), fraction_lt by lia.
  pose proof (sum_above k c _ Hall). unfold channel_sum. lia.
Qed.

Lemma mean_of_uniform k roi c :
  pixels roi ≠ [] → Forall (λ q, channel k q = c) (pixels roi) →
  mean_of k roi = Qc_of_Z c.
Proof.
  intros Hne Hall. apply length_pixels_pos in Hne. unfold mean_of, channel_sum.
  rewrite (sum_uniform k c _ Hall), Z2Qc_inj_mul.
  apply Qcdiv_mult_l, Qc_of_Z_nonzero. lia.
Qed.

Lemma rules_exclusive b g r : red_rule b g r → black_rule b g r → False.
Proof.
  intros (Hr & _) (_ & _ & Hr').
  apply (Qclt_not_le _ _ (Qclt_trans _ _ _ Hr Hr')). by apply Z2Qc_inj_le.
Qed.

Lemma black_rule_decides roi :
  size roi ≠ 0 →
  black_rule (mean_of 0 roi) (mean_of 1 roi) (mean_of 2 roi) →
  _identify_card_type roi = Some "spade_or_club".
Proof.
  intros Hs Hblack.
  assert (¬ red_rule (mean_of 0 roi) (mean_of 1 roi) (mean_of 2 roi)) as Hred
    by (intros Hred; by eapply rules_exclusive).
  rewrite (_identify_card_type_nonempty roi Hs).
  rewrite <-red_rule_bool, not_true_iff_false in Hred.
  apply black_rule_bool in Hblack. by rewrite Hred, Hblack.
Qed.

(** X8. The two threshold rules never hold together (one asks for a red mean
    above 150, the other for one below 50), so the order of the tests decides
    nothing: a non-empty region whose means satisfy the black rule is
    "spade_or_club", whether or not the red rule was tried first. *)
Theorem black_rule_needs_no_priority roi :
  size roi ≠ 0 →
  black_rule (mean_of 0 roi) (mean_of 1 roi) (mean_of 2 roi) →
  ¬ red_rule (mean_of 0 roi) (mean_of 1 roi) (mean_of 2 roi)
  ∧ _identify_card_type roi = Some "spade_or_club".
Proof.
  intros Hs Hblack. split; [|by apply black_rule_decides].
  intros Hred. by eapply rules_exclusive.
Qed.

Lemma black_rule_needs_no_priority_witness :
  ¬ red_rule (mean_of 0 [[(30, 30, 30)]]) (mean_of 1 [[(30, 30, 30)]])
      (mean_of 2 [[(30, 30, 30)]])
  ∧ _identify_card_type [[(30, 30, 30)]] = Some "spade_or_club".
Proof.
  apply (black_rule_needs_no_priority [[(30, 30, 30)]]); [done|].
  repeat split; by vm_compute.
Defined.

(** X9. A non-empty region every pixel of which has R > 150, B < 100 and
    G < 100 is "heart_or_diamond"; one every pixel of which has all three
    channels below 50 is "spade_or_club". *)
Theorem pixelwise_thresholds_decide roi :
  pixels roi ≠ [] →
  (Forall red_pixel (pixels roi) →
   _identify_card_type roi = Some "heart_or_diamond")
  ∧ (Forall black_pixel (pixels roi) →
     _identify_card_type roi = Some "spade_or_club").
Proof.
  intros Hne.
  assert (size roi ≠ 0) as Hs by (by rewrite size_zero_iff).
  split; intros Hall.
  - rewrite (_identify_card_type_nonempty roi Hs).
    assert (red_rule (mean_of 0 roi) (mean_of 1 roi) (mean_of 2 roi)) as Hred.
    { split; [|split].
      - apply mean_of_gt; [done|].
        eapply list.Forall_impl; [done|]. by intros ? (? & _).
      - apply mean_of_lt; [done|].
        eapply list.Forall_impl; [done|]. by intros ? (_ & ? & _).
      - apply mean_of_lt; [done|].
        eapply list.Forall_impl; [done|]. by intros ? (_ & _ & ?). }
    apply red_rule_bool in Hred. by rewrite Hred.
  - apply black_rule_decides; [done|].
    split; [|split]; (apply mean_of_lt; [done|]);
      (eapply list.Forall_impl; [done|]).
    + by intros ? (? & _).
    + by intros ? (_ & ? & _).
    + by intros ? (_ & _ & ?).
Qed.

Lemma pixelwise_thresholds_decide_witness :
  _identify_card_type [[(50, 50, 200); (90, 10, 151)]; [(0, 99, 255); (7, 7, 180)]]
  = Some "heart_or_diamond".
Proof.
  apply (pixelwise_thresholds_decide
           [[(50, 50, 200); (90, 10, 151)]; [(0, 99, 255); (7, 7, 180)]]);
    [done|].
  repeat constructor; simpl; lia.
Defined.

(** X10. A non-empty region of one colour gets the label of the thresholds
    applied to that colour. *)
Theorem uniform_region_label roi p :
  pixels roi ≠ [] → Forall (λ q, q = p) (pixels roi) →
  _identify_card_type roi = Some (colour_label p).
Proof.
  intros Hne Hall.
  assert (size roi ≠ 0) as Hs by (by rewrite size_zero_iff).
  assert (∀ k, mean_of k roi = Qc_of_Z (channel k p)) as Hmean.
  { intros k. apply mean_of_uniform; [done|].
    eapply list.Forall_impl; [done|]. by intros ? ->. }
  rewrite (_identify_card_type_nonempty roi Hs), !Hmean. unfold colour_label.
  destruct (decide (red_pixel p)) as [Hred|Hred].
  - destruct Hred as (H2 & H0 & H1).
    apply Z2Qc_inj_lt, Qcgtb_gt in H2. apply Z2Qc_inj_lt, Qcltb_lt in H0, H1.
    by rewrite H2, H0, H1.
  - destruct (Qcgtb _ _ && _ && _) eqn:Hb.
    { exfalso. apply Hred. rewrite !andb_true_iff, Qcgtb_gt, !Qcltb_lt in Hb.
      rewrite <-!Z2Qc_inj_lt in Hb. unfold red_pixel. tauto. }
    destruct (decide (black_pixel p)) as [Hblack|Hblack].
    + destruct Hblack as (H0 & H1 & H2).
      apply Z2Qc_inj_lt, Qcltb_lt in H0, H1, H2. by rewrite H0, H1, H2.
    + destruct (Qcltb _ (Qc_of_Z 50) && _ && _) eqn:Hb'; [|done].
      exfalso. apply Hblack. rewrite !andb_true_iff, !Qcltb_lt in Hb'.
      rewrite <-!Z2Qc_inj_lt in Hb'. unfold black_pixel. tauto.
Qed.

Lemma uniform_region_label_witness :
  _identify_card_type (solid (120, 130, 140) 2 3)
  = Some (colour_label (120, 130, 140)).
Proof.
  apply (uniform_region_label (solid (120, 130, 140) 2 3) (120, 130, 140));
    [done|].
  by repeat constructor.
Defined.

(** ** Which contours are counted *)

Section counted.
Context {contour : Type} {CA : ContourAnalysis contour}.
Implicit Types (frame : image) (c : contour).

Lemma counted_label_admitted frame c x y w h :
  boundingRect c = (x, y, w, h) → admitted frame c →
  counted_label frame c = _identify_card_type (crop frame x y w h).
Proof.
  intros Hrect [roi Hroi]. unfold counted_label. rewrite Hroi.
  destruct (aspect_ratio_total w h) as [ar Har].
  rewrite (candidate_region_eq frame c x y w h ar Hrect Har) in Hroi.
  case_decide; by simplify_eq.
Qed.

(** X11. A contour that passes the filters and whose rectangle starts at a
    pixel of the frame is always counted, under one of the three labels. *)
Theorem admitted_in_frame_is_counted frame c x y w h row p :
  boundingRect c = (x, y, w, h) → 0 ≤ x → 0 ≤ y →
  frame !! Z.to_nat y = Some row → row !! Z.to_nat x = Some p →
  admitted frame c →
  ∃ l, counted_label frame c = Some l ∧ l ∈ labels.
Proof.
  intros Hrect Hx Hy Hrow Hp Hadm.
  rewrite (counted_label_admitted frame c x y w h Hrect Hadm).
  apply (admitted_integers frame c x y w h Hrect) in Hadm
    as (_ & Hh & Hw & _).
  pose proof (crop_lookup_inside frame x y w h 0 0) as Hcrop.
  rewrite decide_True, !Nat.add_0_r, Hrow in Hcrop by lia. simpl in Hcrop.
  rewrite Hp in Hcrop.
  assert (size (crop frame x y w h) ≠ 0) as Hs.
  { rewrite size_zero_iff. unfold pixels.
    destruct (crop frame x y w h) as [|[|q r] rs]; try done;
      specialize (Hcrop ltac:(lia) ltac:(lia) ltac:(lia) ltac:(lia)); done. }
  rewrite (_identify_card_type_nonempty _ Hs). eexists. split; [done|].
  unfold labels. rewrite !elem_of_cons. repeat case_match; auto.
Qed.


End counted.

Lemma admitted_in_frame_is_counted_witness :
  ∃ l, counted_label (CA := measured [dark_card]) dark_frame dark_card = Some l
       ∧ l ∈ labels.
Proof.
  apply (admitted_in_frame_is_counted (CA := measured [dark_card])
           dark_frame dark_card 5 5 30 45
           (replicate 50 (20, 20, 20)) (20, 20, 20));
    [reflexivity | lia | lia | reflexivity | reflexivity |].
  eexists. by vm_compute.
Defined.


(** ** Properties that hold of every stretch of a session *)

Section obeys.
Context (Φ : session_property) (HΦ : chains Φ).

Lemma obeys_ret {A} (a : A) : obeys Φ (mret a).
Proof. intros self. apply (chains_nil Φ HΦ). Qed.

Lemma obeys_get : obeys Φ get.
Proof. intros self. apply (chains_nil Φ HΦ). Qed.

Lemma obeys_lift {A} (r : outcome A) : obeys Φ (lift r).
Proof. intros self. apply (chains_nil Φ HΦ). Qed.

Lemma obeys_the_time t : obeys Φ (the_time t).
Proof. destruct t; [apply obeys_ret | apply obeys_lift]. Qed.

Lemma obeys_bind {A B} (m : M A) (f : A → M B) :
  obeys Φ m → (∀ a, obeys Φ (f a)) → obeys Φ (m ≫= f).
Proof.
  intros Hm Hf self. specialize (Hm self). unfold mbind, M_bind, bind_M.
  destruct (m self) as [[[a|e|] self1] out1]; simpl in *; [|done|done].
  specialize (Hf a self1). destruct (f a self1) as [[r2 self2] out2]; simpl in *.
  by eapply (chains_app Φ HΦ).
Qed.

Lemma obeys_lift_bind {A B} (r : outcome A) (f : A → M B) :
  (∀ a, r = Ok a → obeys Φ (f a)) → obeys Φ (lift r ≫= f).
Proof.
  intros Hf self. unfold mbind, M_bind, bind_M, lift.
  destruct r as [a|e|]; simpl; [|apply (chains_nil Φ HΦ)..].
  specialize (Hf a eq_refl self).
  by destruct (f a self) as [[r2 self2] out2].
Qed.

Lemma obeys_try_finally {A} (body : M A) (final : M unit) :
  obeys Φ body → obeys Φ final → obeys Φ (try_finally body final).
Proof.
  intros Hb Hf self. specialize (Hb self). unfold try_finally.
  destruct (body self) as [[r self1] out1]; simpl in *.
  specialize (Hf self1).
  destruct r as [a|e|]; [| |done];
    destruct (final self1) as [[[[]|e2|] self2] out2]; simpl in *;
    by eapply (chains_app Φ HΦ).
Qed.

Lemma obeys_except_KeyboardInterrupt (body handler : M unit) :
  obeys Φ body → obeys Φ handler →
  obeys Φ (except_KeyboardInterrupt body handler).
Proof.
  intros Hb Hh self. specialize (Hb self). unfold except_KeyboardInterrupt.
  destruct (body self) as [[r self1] out1]; simpl in *.
  destruct r as [a|[]|]; try done.
  specialize (Hh self1). destruct (handler self1) as [[r2 self2] out2].
  by eapply (chains_app Φ HΦ).
Qed.

End obeys.

Section run_obeys.
Context {contour : Type} {CA : ContourAnalysis contour}.
Context (Φ : session_property) (HΦ : respected Φ).

Lemma obeys_display t : obeys Φ (display_statistics t).
Proof. intros self. apply (respected_display Φ HΦ). Qed.

Lemma obeys_print m : obeys Φ (emit (Print m)).
Proof. intros self. apply (respected_print Φ HΦ). Qed.

Lemma obeys_capture grabbed : obeys Φ (capture_and_process_frame grabbed).
Proof.
  pose proof (respected_chains Φ HΦ) as Hc. unfold capture_and_process_frame.
  apply obeys_bind; [done | by apply obeys_lift |]. intros frame.
  apply obeys_lift_bind; [done|]. intros tally Htally.
  apply obeys_bind; [done | | intros; by apply obeys_ret].
  intros self. by apply (respected_update Φ HΦ frame).
Qed.

Lemma obeys_report now td : obeys Φ (report_if_due now td).
Proof.
  pose proof (respected_chains Φ HΦ) as Hc. unfold report_if_due.
  apply obeys_bind; [done | by apply obeys_get |]. intros self.
  apply obeys_bind; [done | by apply obeys_the_time |]. intros last.
  destruct (Qcgeb _ _); [|by apply obeys_ret].
  apply obeys_bind; [done | by apply obeys_lift |]. intros fps.
  apply obeys_bind; [done | |intros _].
  { intros s. apply (respected_current_fps Φ HΦ). }
  apply obeys_bind; [done | apply obeys_display |intros _].
  apply obeys_bind; [done | |intros _].
  { intros s. apply (respected_last_update_time Φ HΦ). }
  apply obeys_bind; [done | |intros _].
  { intros s. apply (respected_fps_counter Φ HΦ). }
  by apply obeys_ret.
Qed.

Lemma obeys_should_stop duration now : obeys Φ (should_stop duration now).
Proof.
  pose proof (respected_chains Φ HΦ) as Hc. unfold should_stop.
  destruct duration as [d|]; [|by apply obeys_ret].
  destruct (truthy _); [|by apply obeys_ret].
  apply obeys_bind; [done | by apply obeys_get |]. intros self.
  apply obeys_bind; [done | by apply obeys_the_time |]. intros t0.
  by apply obeys_ret.
Qed.

Lemma obeys_loop_body duration it : obeys Φ (loop_body duration it).
Proof.
  pose proof (respected_chains Φ HΦ) as Hc. unfold loop_body.
  apply obeys_bind; [done | apply obeys_should_stop |]. intros [|].
  { by apply obeys_ret. }
  apply obeys_bind; [done | apply obeys_capture |intros _].
  apply obeys_bind; [done | |intros _].
  { intros s. apply (respected_fps_counter Φ HΦ). }
  apply obeys_bind; [done | apply obeys_report |intros _].
  apply obeys_bind; [done | by apply obeys_lift |intros _].
  by apply obeys_ret.
Qed.

Lemma obeys_while_true duration script : obeys Φ (while_true duration script).
Proof.
  pose proof (respected_chains Φ HΦ) as Hc.
  induction script as [|it rest IH]; simpl; [by apply obeys_lift|].
  apply obeys_bind; [done | apply obeys_loop_body |].
  intros [|]; [by apply obeys_ret | done].
Qed.

(** Whatever holds of every step of a session holds of the session. *)
Lemma run_obeys duration t_start script t_final :
  obeys Φ (run duration t_start script t_final).
Proof.
  pose proof (respected_chains Φ HΦ) as Hc. unfold run.
  apply obeys_bind; [done | apply obeys_print |intros _].
  apply obeys_bind; [done | |intros _].
  { intros s. apply (respected_session_start_time Φ HΦ). }
  apply obeys_bind; [done | |intros _].
  { intros s. apply (respected_last_update_time Φ HΦ). }
  apply obeys_try_finally; [done | |].
  - apply obeys_except_KeyboardInterrupt;
      [done | apply obeys_while_true | apply obeys_print].
  - apply obeys_bind; [done | apply obeys_print |intros _].
    apply obeys_bind; [done | apply obeys_display |intros _].
    apply obeys_print.
Qed.

End run_obeys.

Lemma keeping_chains P Q : chains (keeping P Q).
Proof.
  split; unfold keeping.
  - intros s HP. split; [done | constructor].
  - intros s1 o1 s2 o2 s3 H1 H2 HP.
    destruct (H1 HP) as [HP2 Ho1]. destruct (H2 HP2) as [HP3 Ho2].
    split; [done|]. by apply Forall_app.
Qed.

Lemma ascending_app a b c l1 l2 :
  ascending a b l1 → ascending b c l2 → ascending a c (l1 ++ l2).
Proof.
  revert a. induction l1 as [|v l1 IH]; intros a; simpl.
  - intros Hab. destruct l2 as [|w l2]; simpl; [lia|].
    intros [? ?]. split; [lia|done].
  - intros [? ?] ?. split; [done|]. by apply IH.
Qed.

Lemma ascending_bounds lo hi l :
  ascending lo hi l → lo ≤ hi ∧ Forall (λ v, lo ≤ v ≤ hi) l.
Proof.
  revert lo. induction l as [|v l IH]; intros lo; simpl.
  - intros ?. split; [done | constructor].
  - intros [Hlo Hl]. destruct (IH v Hl) as [Hv Hall].
    split; [lia|]. constructor; [lia|].
    eapply list.Forall_impl; [done|]. simpl. intros; lia.
Qed.

Lemma ascending_sorted lo hi l : ascending lo hi l → Sorted Z.le l.
Proof.
  revert lo. induction l as [|v l IH]; intros lo; simpl; [constructor|].
  intros [_ Hl]. constructor; [by eapply IH|].
  destruct l as [|w l]; constructor. by destruct Hl.
Qed.

Lemma growing_chains μ ν : chains (growing μ ν).
Proof.
  split; unfold growing.
  - intros s. simpl. lia.
  - intros s1 o1 s2 o2 s3 H1 H2. unfold shown_values. rewrite omap_app.
    by eapply ascending_app.
Qed.

Section session_invariants.
Context {contour : Type} {CA : ContourAnalysis contour}.

Lemma keeping_respected (P : CardDetector → Prop) (Q : snapshot → Prop) :
  (∀ frame tally s,
     detect_cards_in_frame frame = Ok tally → P s → P (update_statistics s tally)) →
  (∀ n s, P s → P (set_fps_counter n s)) →
  (∀ r s, P s → P (set_current_fps r s)) →
  (∀ t s, P s → P (set_last_update_time t s)) →
  (∀ t s, P s → P (set_session_start_time t s)) →
  (∀ t s, P s → Q (take_snapshot t s)) →
  respected (keeping P Q).
Proof.
  intros Hup H1 H2 H3 H4 HQ.
  split; [apply keeping_chains|..]; unfold keeping.
  - intros frame tally s Ht HP. split; [by eapply Hup | constructor].
  - intros n s HP. split; [by apply H1 | constructor].
  - intros r s HP. split; [by apply H2 | constructor].
  - intros t s HP. split; [by apply H3 | constructor].
  - intros t s HP. split; [by apply H4 | constructor].
  - intros t s HP. split; [done|]. repeat constructor. by apply HQ.
  - intros m s HP. split; [done|]. by repeat constructor.
Qed.

Lemma growing_respected (μ : CardDetector → Z) (ν : snapshot → Z) :
  (∀ frame tally s,
     detect_cards_in_frame frame = Ok tally →
     μ s ≤ μ (update_statistics s tally)) →
  (∀ n s, μ (set_fps_counter n s) = μ s) →
  (∀ r s, μ (set_current_fps r s) = μ s) →
  (∀ t s, μ (set_last_update_time t s) = μ s) →
  (∀ t s, μ (set_session_start_time t s) = μ s) →
  (∀ t s, ν (take_snapshot t s) = μ s) →
  respected (growing μ ν).
Proof.
  intros Hup H1 H2 H3 H4 Hν.
  split; [apply growing_chains|..]; unfold growing; simpl.
  - intros frame tally s Ht. by eapply Hup.
  - intros n s. rewrite H1. lia.
  - intros r s. rewrite H2. lia.
  - intros t s. rewrite H3. lia.
  - intros t s. rewrite H4. lia.
  - intros t s. rewrite Hν. lia.
  - intros m s. lia.
Qed.

Lemma update_statistics_well_formed self tally :
  well_formed_tally (card_counts self) → well_formed_tally tally →
  well_formed_tally (card_counts (update_statistics self tally)).
Proof.
  intros Hold Hnew l n Hl.
  pose proof (update_statistics_getitem self tally l) as Hget.
  unfold getitem in Hget. rewrite Hl in Hget. simpl in Hget.
  assert (l ∈ dom (card_counts (update_statistics self tally))) as Hdom
    by (apply elem_of_dom; eauto).
  rewrite update_statistics_dom, elem_of_union, !elem_of_dom in Hdom.
  destruct (card_counts self !! l) as [a|] eqn:Ha,
           (tally !! l) as [b|] eqn:Hb; simpl in Hget.
  - destruct (Hold l a Ha), (Hnew l b Hb). split; [done | lia].
  - destruct (Hold l a Ha). split; [done | lia].
  - destruct (Hnew l b Hb). split; [done | lia].
  - by destruct Hdom as [[? ?]|[? ?]].
Qed.

(** X13. If the total of detected cards equals the sum of the per-label
    counts when [run] is called, it does so when [run] is over or was left
    running, and every statistics block printed on the way shows a total equal
    to the sum of its breakdown: no error path leaves the two apart. *)
Theorem run_keeps_statistics_consistent duration t_start script t_final self :
  stats_consistent self →
  let res := run duration t_start script t_final self in
  stats_consistent res.1.2
  ∧ Forall (shown (λ sn, snap_total sn = sum_counts (snap_counts sn))) res.2.
Proof.
  intros Hs res. subst res.
  refine (run_obeys (keeping stats_consistent _) _ duration t_start script
            t_final self Hs).
  apply keeping_respected; try done.
  intros frame tally s _. apply update_statistics_consistent.
Qed.

(** X14. During [run] the number of frames processed never goes down: the
    statistics blocks show it in ascending order, between its value at the
    call and its value at the end. *)
Theorem run_frames_never_decrease duration t_start script t_final self :
  let res := run duration t_start script t_final self in
  total_frames_processed self ≤ total_frames_processed res.1.2
  ∧ Sorted Z.le (shown_values snap_frames res.2)
  ∧ Forall (λ v, total_frames_processed self ≤ v
                 ≤ total_frames_processed res.1.2)
      (shown_values snap_frames res.2).
Proof.
  intros res. subst res.
  assert (respected (growing total_frames_processed snap_frames)) as Hr.
  { apply growing_respected; try done.
    intros frame tally s _. rewrite update_statistics_frames. lia. }
  pose proof (run_obeys _ Hr duration t_start script t_final self) as Hrun.
  unfold growing in Hrun.
  destruct (ascending_bounds _ _ _ Hrun) as [? ?].
  split; [done|]. split; [by eapply ascending_sorted | done].
Qed.

(** X15. During [run] the total of detected cards never goes down either,
    and the statistics blocks show it in ascending order. *)
Theorem run_cards_never_decrease duration t_start script t_final self :
  let res := run duration t_start script t_final self in
  total_cards_detected self ≤ total_cards_detected res.1.2
  ∧ Sorted Z.le (shown_values snap_total res.2)
  ∧ Forall (λ v, total_cards_detected self ≤ v ≤ total_cards_detected res.1.2)
      (shown_values snap_total res.2).
Proof.
  intros res. subst res.
  assert (respected (growing total_cards_detected snap_total)) as Hr.
  { apply growing_respected; try done.
    intros frame tally s Ht.
    rewrite update_statistics_total, (detect_cards_in_frame_sum frame tally Ht).
    lia. }
  pose proof (run_obeys _ Hr duration t_start script t_final self) as Hrun.
  unfold growing in Hrun.
  destruct (ascending_bounds _ _ _ Hrun) as [? ?].
  split; [done|]. split; [by eapply ascending_sorted | done].
Qed.

(** X16. [run] never gives the cumulative counts an entry outside the three
    labels, nor an entry below 1: if all entries are so at the call, they are
    so afterwards and in every statistics block printed.  The map of counts
    therefore never grows beyond three entries. *)
Theorem run_keeps_counts_well_formed duration t_start script t_final self :
  well_formed_tally (card_counts self) →
  let res := run duration t_start script t_final self in
  well_formed_tally (card_counts res.1.2)
  ∧ Forall (shown (λ sn, well_formed_tally (snap_counts sn))) res.2.
Proof.
  intros Hs res. subst res.
  refine (run_obeys (keeping (λ s, well_formed_tally (card_counts s)) _) _
            duration t_start script t_final self Hs).
  apply keeping_respected; try done.
  intros frame tally s Ht Hwf. apply update_statistics_well_formed; [done|].
  exact (detect_cards_in_frame_well_formed frame tally Ht).
Qed.

End session_invariants.

Lemma run_keeps_statistics_consistent_witness :
  stats_consistent
    (run (CA := measured [dark_card]) None (Qc_of_Z 100)
       [quiet_turn 110; failing_turn 111] (Qc_of_Z 112) (__init__ 1%Qc 1)).1.2.
Proof.
  apply (run_keeps_statistics_consistent (CA := measured [dark_card])
           None (Qc_of_Z 100) [quiet_turn 110; failing_turn 111] (Qc_of_Z 112)
           (__init__ 1%Qc 1)).
  by vm_compute.
Defined.

Lemma run_keeps_counts_well_formed_witness :
  well_formed_tally
    (card_counts
       (run (CA := measured [dark_card]) None (Qc_of_Z 100)
          [quiet_turn 110; failing_turn 111] (Qc_of_Z 112) (__init__ 1%Qc 1)).1.2).
Proof.
  apply (run_keeps_counts_well_formed (CA := measured [dark_card])
           None (Qc_of_Z 100) [quiet_turn 110; failing_turn 111] (Qc_of_Z 112)
           (__init__ 1%Qc 1)).
  intros l n. simpl. by rewrite lookup_empty.
Defined.

(** ** How the duration ends the loop *)

Lemma foldl_count_card_session_start items self :
  session_start_time (foldl count_card self items) = session_start_time self.
Proof.
  revert self. induction items as [|item items IH]; intros self; [done|].
  cbn [foldl]. rewrite IH. by destruct item.
Qed.

Lemma update_statistics_session_start self tally :
  session_start_time (update_statistics self tally) = session_start_time self.
Proof. unfold update_statistics. by rewrite foldl_count_card_session_start. Qed.

Lemma stopping_not_statistics out :
  Forall is_statistics out → Print Stopping ∉ out.
Proof.
  intros Hout Hin. rewrite list.Forall_forall in Hout.
  by destruct (Hout _ Hin) as [s ?].
Qed.

Section duration.
Context {contour : Type} {CA : ContourAnalysis contour}.

Lemma should_stop_not_yet d now self t0 :
  d ≠ 0%Qc → session_start_time self = Some t0 → (now - t0 < d)%Qc →
  should_stop (Some d) now self = (Ok false, self, []).
Proof.
  intros Hd Ht0 Hlt. unfold should_stop. simpl.
  apply Qceqb_ne in Hd. rewrite Hd. simpl. run_M. rewrite Ht0. simpl.
  apply Qcgeb_lt in Hlt. by rewrite Hlt.
Qed.

Lemma loop_body_continues duration it self last :
  should_stop duration (time_at_check it) self = (Ok false, self, []) →
  uneventful it →
  last_update_time self = Some last → (0 < update_interval self)%Qc →
  ∃ self' out,
    loop_body duration it self = (Ok false, self', out)
    ∧ total_frames_processed self' = total_frames_processed self + 1
    ∧ (∃ last', last_update_time self' = Some last')
    ∧ update_interval self' = update_interval self
    ∧ session_start_time self' = session_start_time self.
Proof.
  intros Hstop [[frame Hg] Hs] Hl Hpos.
  destruct (detect_cards_in_frame_total frame) as [counts Hc].
  pose proof (capture_and_process_frame_ok frame counts self Hc) as Hcap.
  set (self1 := set_fps_counter (fps_counter (update_statistics self counts) + 1)
                  (update_statistics self counts)).
  destruct (update_statistics_fields self counts) as (Hi1 & Hl1 & _).
  assert (last_update_time self1 = Some last) as Hl' by (by rewrite <-Hl, <-Hl1).
  assert (update_interval self1 = update_interval self) as Hi' by done.
  assert (total_frames_processed self1 = total_frames_processed self + 1) as Hf'
    by apply update_statistics_frames.
  assert (session_start_time self1 = session_start_time self) as Ht'
    by apply update_statistics_session_start.
  assert (∃ self' out,
            report_if_due (time_after_frame it) (time_at_display it) self1
            = (Ok tt, self', out)
            ∧ total_frames_processed self' = total_frames_processed self1
            ∧ (∃ last', last_update_time self' = Some last')
            ∧ update_interval self' = update_interval self1
            ∧ session_start_time self' = session_start_time self1)
    as (self2 & out2 & Hrep & Hf2 & Hl2 & Hi2 & Ht2).
  { destruct (decide (update_interval self1 ≤ time_after_frame it - last)%Qc)
      as [Hdt|Hdt].
    - rewrite (report_if_due_boundary self1 _ _ last Hl' Hdt); [simpl; eauto 10|].
      intros Hz. rewrite Hz, Hi' in Hdt. by apply Qcle_not_lt in Hdt.
    - rewrite (report_if_due_early self1 _ _ last Hl'); [|by apply Qcnot_le_lt].
      eauto 10. }
  exists self2, out2. split; [|by rewrite Hf2, Hi2, Ht2].
  unfold loop_body. unfold mbind at 1, M_bind, bind_M at 1. rewrite Hstop.
  run_M. rewrite Hg, Hcap.
  fold self1. rewrite Hrep, Hs. simpl. by rewrite app_nil_r.
Qed.

Lemma while_true_until_expiry d before it rest self t0 last :
  d ≠ 0%Qc →
  Forall (λ it', uneventful it' ∧ (time_at_check it' - t0 < d)%Qc) before →
  (d ≤ time_at_check it - t0)%Qc →
  session_start_time self = Some t0 →
  last_update_time self = Some last → (0 < update_interval self)%Qc →
  ∃ self' out,
    while_true (Some d) (before ++ it :: rest) self = (Ok tt, self', out)
    ∧ total_frames_processed self'
      = total_frames_processed self + Z.of_nat (length before).
Proof.
  intros Hd Hbefore Hle. revert self last.
  induction Hbefore as [|it' before [Hun Hlt] _ IH];
    intros self last Ht0 Hl Hpos; simpl.
  - unfold mbind, M_bind, bind_M.
    rewrite (loop_body_expired (Some d) d it self t0) by done.
    exists self, []. split; [done | lia].
  - destruct (loop_body_continues (Some d) it' self last)
      as (self1 & out1 & Hbody & Hf & [last1 Hl1] & Hi & Ht1); [|done..|].
    { by apply (should_stop_not_yet d _ self t0). }
    destruct (IH self1 last1) as (self2 & out2 & Hrest & Hf2);
      [by rewrite Ht1 | done | by rewrite Hi |].
    unfold mbind, M_bind, bind_M. rewrite Hbody, Hrest.
    eexists _, _. split; [done | lia].
Qed.

(** X17. With a duration other than 0 and a positive update interval, [run]
    goes through the turns whose duration check comes before the duration has
    elapsed (as long as nothing raises), stops at the first check at or after
    it without grabbing another frame, returns normally, has processed one
    frame per turn gone through, and ends its output with the final block. *)
Theorem run_stops_at_expiry d t_start before it rest t_final self :
  (0 < update_interval self)%Qc → d ≠ 0%Qc →
  Forall (λ it', uneventful it' ∧ (time_at_check it' - t_start < d)%Qc) before →
  (d ≤ time_at_check it - t_start)%Qc →
  let res := run (Some d) t_start (before ++ it :: rest) t_final self in
  res.1.1 = Ok tt
  ∧ total_frames_processed res.1.2
    = total_frames_processed self + Z.of_nat (length before)
  ∧ ∃ pre, res.2 = pre ++ final_block t_final res.1.2.
Proof.
  intros Hpos Hd Hbefore Hle res. subst res. rewrite run_after_loop.
  destruct (while_true_until_expiry d before it rest (started t_start self)
              t_start t_start)
    as (self' & out & -> & Hf); [done..|].
  simpl. split; [done|]. split; [done|]. by exists (Print Banner :: out).
Qed.

(** X18. Without a duration ([None]) and with a positive update interval,
    [run] never leaves the loop by itself: over any number of turns in which
    nothing raises it is still running, has processed one frame per turn and
    has printed no final statistics. *)
Theorem run_without_duration_goes_on script t_start t_final self :
  (0 < update_interval self)%Qc → Forall uneventful script →
  let res := run None t_start script t_final self in
  res.1.1 = Pending
  ∧ (Print FinalHeader ∉ res.2)
  ∧ total_frames_processed res.1.2
    = total_frames_processed self + Z.of_nat (length script).
Proof.
  intros Hpos Hs res. subst res. rewrite run_after_loop.
  destruct (while_true_uneventful None script (started t_start self) t_start)
    as (self' & out & Hloop & Hf); [done..|].
  pose proof (only_statistics_while_true None script (started t_start self))
    as Hout.
  rewrite Hloop in *. simpl in *.
  split; [done|]. split; [|done].
  apply not_elem_of_cons. split; [done|]. by apply final_header_not_statistics.
Qed.

End duration.

Lemma run_stops_at_expiry_witness :
  (run (CA := measured [dark_card]) (Some (Qc_of_Z 15)) (Qc_of_Z 100)
     ([quiet_turn 105; quiet_turn 110] ++ quiet_turn 115 :: [quiet_turn 120])
     (Qc_of_Z 116) (__init__ 1%Qc 1)).1.1 = Ok tt.
Proof.
  apply (run_stops_at_expiry (CA := measured [dark_card]) (Qc_of_Z 15)
           (Qc_of_Z 100) [quiet_turn 105; quiet_turn 110] (quiet_turn 115)
           [quiet_turn 120] (Qc_of_Z 116) (__init__ 1%Qc 1)).
  - by vm_compute.
  - by vm_compute.
  - repeat constructor; try (by eexists); by vm_compute.
  - by vm_compute.
Defined.

Lemma run_without_duration_goes_on_witness :
  (run (CA := measured [dark_card]) None (Qc_of_Z 100)
     [quiet_turn 110; quiet_turn 120; quiet_turn 130] (Qc_of_Z 140)
     (__init__ 1%Qc 1)).1.1 = Pending.
Proof.
  apply (run_without_duration_goes_on (CA := measured [dark_card])
           [quiet_turn 110; quiet_turn 120; quiet_turn 130]
           (Qc_of_Z 100) (Qc_of_Z 140) (__init__ 1%Qc 1)).
  - by vm_compute.
  - repeat constructor; by eexists.
Defined.

Section interrupt_caught.
Context {contour : Type} {CA : ContourAnalysis contour}.

(** X19. A KeyboardInterrupt that lands in the loop, at whichever statement,
    does not leave [run] when nothing lands outside the loop (before the
    [try], in the [except] handler or in the [finally] block): [run] prints
    the stopping message and returns normally.  Any other exception of the
    loop comes out of [run] unchanged, and then the stopping message is not
    printed. *)
Theorem interrupt_in_loop_is_caught duration t_start script t_final self :
  let loop := interruptible_loop duration script (started t_start self) in
  let res := interruptible_run duration t_start script t_final
               undisturbed_ending self in
  res.1.1 ≠ Raise KeyboardInterrupt
  ∧ (loop.1.1 = Raise KeyboardInterrupt →
     res.1.1 = Ok tt ∧ Print Stopping ∈ res.2)
  ∧ (∀ x, x ≠ KeyboardInterrupt → loop.1.1 = Raise x →
     res.1.1 = Raise x ∧ Print Stopping ∉ res.2).
Proof.
  intros loop res. subst loop res.
  rewrite interruptible_run_after_loop by done.
  unfold except_KeyboardInterrupt, final_block. simpl.
  pose proof (only_statistics_interruptible_loop duration script
                (started t_start self)) as Hout.
  destruct (interruptible_loop duration script _) as [[r self1] out1].
  simpl in Hout. apply stopping_not_statistics in Hout.
  destruct r as [[]|x|]; simpl.
  - split; [done|]. split; [done|]. by intros x _ [=].
  - destruct x; simpl; (split; [done|]); (split; [|intros x Hx [=]]);
      try done; try (by subst).
    + intros _. split; [done|].
      rewrite elem_of_cons, !elem_of_app, elem_of_cons. auto.
    + subst. split; [done|].
      rewrite not_elem_of_cons, not_elem_of_app, !not_elem_of_cons.
      repeat split; try done. apply not_elem_of_nil.
    + subst. split; [done|].
      rewrite not_elem_of_cons, not_elem_of_app, !not_elem_of_cons.
      repeat split; try done. apply not_elem_of_nil.
    + subst. split; [done|].
      rewrite not_elem_of_cons, not_elem_of_app, !not_elem_of_cons.
      repeat split; try done. apply not_elem_of_nil.
  - split; [done|]. split; [done|]. by intros x _ [=].
Qed.

End interrupt_caught.

Lemma interrupt_in_loop_is_caught_witness :
  (interruptible_run (CA := measured [dark_card]) None (Qc_of_Z 100)
     [undisturbed (quiet_turn 110); interrupted_in_update 111] (Qc_of_Z 112)
     undisturbed_ending (__init__ 1%Qc 1)).1.1 = Ok tt
  ∧ Print Stopping ∈
      (interruptible_run (CA := measured [dark_card]) None (Qc_of_Z 100)
         [undisturbed (quiet_turn 110); interrupted_in_update 111] (Qc_of_Z 112)
         undisturbed_ending (__init__ 1%Qc 1)).2.
Proof.
  destruct (interrupt_in_loop_is_caught (CA := measured [dark_card]) None
              (Qc_of_Z 100) [undisturbed (quiet_turn 110); interrupted_in_update 111]
              (Qc_of_Z 112) (__init__ 1%Qc 1)) as (_ & Hint & _).
  apply Hint. by vm_compute.
Defined.

(** ** The breakdown of the statistics *)

#[global] Instance label_le_total : Total label_le.
Proof.
  intros a b. unfold label_le.
  destruct (String.leb_total a.1 b.1) as [H|H]; rewrite H; simpl; auto.
Qed.

Lemma percentage_total count total :
  ∃ p, percentage count total = Ok p
       ∧ (total ≤ 0 → p = 0%Qc)
       ∧ (0 < total → p = (Qc_of_Z (count * 100) / Qc_of_Z total)%Qc).
Proof.
  unfold percentage, truediv. destruct (Z.ltb_spec 0 total) as [Hpos|Hle].
  - destruct (Qceqb (Qc_of_Z total) 0) eqn:Hz.
    { apply Qceqb_eq, Qc_of_Z_eq_0 in Hz. lia. }
    simpl. eexists. split; [done|]. split; [lia|]. intros _.
    rewrite Z2Qc_inj_mul. apply Qceqb_ne in Hz. by field.
  - eexists. split; [done|]. split; [done | lia].
Qed.

Lemma breakdown_rows_total total items :
  ∃ rows, breakdown_rows total items = Ok rows
          ∧ rows.*1 = items
          ∧ Forall (λ row, percentage row.1.2 total = Ok row.2) rows.
Proof.
  induction items as [|[l n] items (rows & IH & Hitems & Hrows)]; simpl.
  - exists []. split; [done|]. split; [done | constructor].
  - destruct (percentage_total n total) as (p & Hp & _). rewrite Hp, IH. simpl.
    eexists. split; [done|]. split; [by rewrite <-Hitems|]. by constructor.
Qed.

Lemma sum_counts_nonneg (m : gmap string Z) :
  (∀ l n, m !! l = Some n → 0 ≤ n) → 0 ≤ sum_counts m.
Proof.
  intros Hm. rewrite sum_counts_map_to_list.
  assert (Forall (λ item, 0 ≤ item.2) (map_to_list m)) as Hall.
  { apply list.Forall_forall. intros [l n] Hin.
    apply elem_of_map_to_list in Hin. by eapply Hm. }
  induction Hall as [|item items Hitem _ IH]; simpl; lia.
Qed.

Lemma count_at_most_sum (m : gmap string Z) l n :
  (∀ l n, m !! l = Some n → 0 ≤ n) → m !! l = Some n → n ≤ sum_counts m.
Proof.
  intros Hm Hl. rewrite (sum_counts_delete m l). unfold getitem. rewrite Hl. simpl.
  assert (0 ≤ sum_counts (delete l m)); [|lia].
  apply sum_counts_nonneg. intros l' n'. rewrite lookup_delete.
  case_decide; [done|]. apply Hm.
Qed.

(** X20. As long as no count is beyond the range in which line 183 divides
    and multiplies without overflow (beyond the range of a float the
    division of Python raises OverflowError, which the exact quotient of
    [percentage] does not show), computing the breakdown of the statistics
    does not raise: with a total of 0 or less every percentage is 0 and
    nothing is divided; it has one row per label of the cumulative counts, in
    ascending order of the labels. *)
Theorem breakdown_never_raises self :
  (∀ l n, card_counts self !! l = Some n → Z.abs n < 2 ^ 1000) →
  ∃ rows, card_type_breakdown self = Ok rows
          ∧ rows.*1 ≡ₚ map_to_list (card_counts self)
          ∧ Sorted label_le rows.*1
          ∧ (total_cards_detected self ≤ 0 → Forall (λ row, row.2 = 0%Qc) rows).
Proof.
  intros _. unfold card_type_breakdown.
  destruct (breakdown_rows_total (total_cards_detected self)
              (sorted_items (card_counts self))) as (rows & -> & Hitems & Hrows).
  exists rows. split; [done|]. rewrite Hitems. unfold sorted_items.
  split; [apply merge_sort_Permutation|]. split; [apply Sorted_merge_sort, _|].
  intros Hle. eapply list.Forall_impl; [done|]. simpl. intros row Hrow.
  destruct (percentage_total row.1.2 (total_cards_detected self))
    as (p & Hp & Hzero & _).
  rewrite Hp in Hrow. injection Hrow as <-. by apply Hzero.
Qed.

(** X21. When the total equals the sum of the counts and every count is at
    least 1 (as [run] keeps them), every row of the breakdown shows its label
    with its cumulative count and the percentage count * 100 / total, which
    is above 0 and at most 100. *)
Theorem breakdown_percentages self rows :
  stats_consistent self → well_formed_tally (card_counts self) →
  card_type_breakdown self = Ok rows →
  Forall (λ row,
            card_counts self !! row.1.1 = Some row.1.2
            ∧ row.2 = (Qc_of_Z (row.1.2 * 100)
                       / Qc_of_Z (total_cards_detected self))%Qc
            ∧ (0 < row.2 ≤ Qc_of_Z 100)%Qc) rows.
Proof.
  intros Hcons Hwf. unfold card_type_breakdown.
  destruct (breakdown_rows_total (total_cards_detected self)
              (sorted_items (card_counts self))) as (rows' & -> & Hitems & Hrows).
  intros [= <-]. apply list.Forall_forall. intros [[l n] p] Hin.
  rewrite list.Forall_forall in Hrows. specialize (Hrows _ Hin). simpl in *.
  assert (card_counts self !! l = Some n) as Hl.
  { apply elem_of_map_to_list.
    rewrite <-(merge_sort_Permutation label_le (map_to_list (card_counts self))).
    fold (sorted_items (card_counts self)). rewrite <-Hitems.
    by apply (list_elem_of_fmap_2 fst _ (l, n, p)). }
  destruct (Hwf l n Hl) as [_ Hn].
  assert (n ≤ total_cards_detected self) as Hle.
  { rewrite Hcons. apply (count_at_most_sum _ l); [|done].
    intros l' n' Hl'. destruct (Hwf l' n' Hl'). lia. }
  destruct (percentage_total n (total_cards_detected self))
    as (p' & Hp & _ & Hpos).
  rewrite Hp in Hrows. injection Hrows as ->.
  split; [done|]. rewrite Hpos by lia. split; [done|].
  split.
  - rewrite <-Z2Qc_inj_0, (integer_fraction 0), fraction_lt by lia. lia.
  - rewrite (integer_fraction 100), fraction_le by lia. lia.
Qed.

Lemma breakdown_never_raises_witness :
  (∃ rows, card_type_breakdown two_suits = Ok rows
           ∧ rows.*1 ≡ₚ map_to_list (card_counts two_suits)
           ∧ Sorted label_le rows.*1)
  ∧ (∃ rows, card_type_breakdown two_suits_no_total = Ok rows
             ∧ rows.*1 ≡ₚ map_to_list (card_counts two_suits_no_total)
             ∧ Forall (λ row, row.2 = 0%Qc) rows).
Proof.
  assert (∀ l n, (<["heart_or_diamond" := 5]> {[ "spade_or_club" := 3 ]}
                    : gmap string Z) !! l = Some n → Z.abs n < 2 ^ 1000) as Hrange.
  { intros l n [[_ <-]|[_ [_ <-]%lookup_singleton_Some]]%lookup_insert_Some;
      by vm_compute. }
  split.
  - destruct (breakdown_never_raises two_suits)
      as (rows & Hrows & Hperm & Hsorted & _).
    { replace (card_counts two_suits)
        with (<["heart_or_diamond" := 5]> {[ "spade_or_club" := 3 ]}
                : gmap string Z) by (by vm_compute).
      exact Hrange. }
    exists rows. split; [exact Hrows|]. split; [exact Hperm | exact Hsorted].
  - destruct (breakdown_never_raises two_suits_no_total)
      as (rows & Hrows & Hperm & _ & Hzero).
    { replace (card_counts two_suits_no_total)
        with (<["heart_or_diamond" := 5]> {[ "spade_or_club" := 3 ]}
                : gmap string Z) by (by vm_compute).
      exact Hrange. }
    exists rows. split; [exact Hrows|]. split; [exact Hperm|].
    apply Hzero. simpl. lia.
Defined.

Lemma breakdown_percentages_witness :
  ∃ rows, card_type_breakdown (counting 1%Qc 30) = Ok rows
          ∧ Forall (λ row,
                      card_counts (counting 1%Qc 30) !! row.1.1 = Some row.1.2
                      ∧ row.2 = (Qc_of_Z (row.1.2 * 100)
                                 / Qc_of_Z (total_cards_detected
                                              (counting 1%Qc 30)))%Qc
                      ∧ (0 < row.2 ≤ Qc_of_Z 100)%Qc) rows.
Proof.
  destruct (breakdown_rows_total (total_cards_detected (counting 1%Qc 30))
              (sorted_items (card_counts (counting 1%Qc 30))))
    as (rows & Hrows & _).
  exists rows. split; [exact Hrows|].
  apply (breakdown_percentages (counting 1%Qc 30) rows);
    [by vm_compute | | exact Hrows].
  intros l n.
  replace (card_counts (counting 1%Qc 30))
    with ({[ "spade_or_club" := 2 ]} : gmap string Z) by (by vm_compute).
  intros [<- <-]%lookup_singleton_Some.
  split; [|lia]. unfold labels. rewrite !elem_of_cons. auto.
Defined.
